(** * A retrieval-augmented question-answering page over one PDF

    Shallow embedding of [samples/rag.py]: the Streamlit script, its
    three helper functions and the session state they share, together
    with the parts of the libraries it calls whose behaviour its
    specification talks about (the recursive character splitter and the
    flat nearest-neighbour index).

    Python values are modelled as follows.
    - [str] is a list of characters; a character is a code point below
      256.  Literals that hold an emoji carry its UTF-8 bytes; they are
      only ever concatenated and displayed, never measured or split.
    - An exception is a value; code that may raise returns a [result].
    - Code that talks to the outside (file system, PDF parser, embedding
      service, language model, the page being rendered) threads a
      [State] and may raise: the monad [M].
    - [st.session_state] is a finite map from attribute names to
      values. *)

From Stdlib Require Import ZArith QArith Permutation Sorted Ascii.
From stdpp Require Import gmap strings list fin_maps pretty.

Local Open Scope Z_scope.
Local Open Scope list_scope.

(** ** Python preliminaries *)

Module Py.

(** A Python [str]. *)
Definition str := list ascii.

(** A string literal of the source. *)
Definition lit (s : string) : str := String.list_ascii_of_string s.

(** [len(x)] as a Python integer. *)
Definition len {A} (l : list A) : Z := Z.of_nat (length l).

(** An exception object: its class name and [str(e)]. *)
Record Exception := mkException { exc_class : str; exc_str : str }.

Definition IndexError : Exception :=
  mkException (lit "IndexError") (lit "list index out of range").
Definition KeyError (k : string) : Exception :=
  mkException (lit "KeyError") (lit k).
Definition AttributeError (k : string) : Exception :=
  mkException (lit "AttributeError") (lit k).
Definition TypeError (m : string) : Exception :=
  mkException (lit "TypeError") (lit m).

(** The outcome of evaluating an expression: a value, or a raised
    exception. *)
Inductive result (A : Type) : Type :=
| Ok (a : A)
| Raise (e : Exception).
Arguments Ok {A} a.
Arguments Raise {A} e.

Definition rbind {A B} (r : result A) (k : A -> result B) : result B :=
  match r with
  | Ok a => k a
  | Raise e => Raise e
  end.

(** [str.isspace] on one character: the white space of Unicode below
    code point 256. *)
Definition isspace (c : ascii) : bool :=
  let n := nat_of_ascii c in
  ((9 <=? n) && (n <=? 13) || (28 <=? n) && (n <=? 32)
   || (n =? 133) || (n =? 160))%nat.

Fixpoint lstrip (s : str) : str :=
  match s with
  | c :: s' => if isspace c then lstrip s' else s
  | [] => []
  end.

Definition rstrip (s : str) : str := rev (lstrip (rev s)).

(** [s.strip()] *)
Definition strip (s : str) : str := rstrip (lstrip s).

(** [s.startswith(p)] *)
Fixpoint startswith (p s : str) : bool :=
  match p, s with
  | [], _ => true
  | _ :: _, [] => false
  | a :: p', b :: s' => if Ascii.eqb a b then startswith p' s' else false
  end.

(** [re.search(re.escape(p), s)]: does the literal [p] occur in [s]? *)
Fixpoint re_search (p s : str) : bool :=
  startswith p s ||
  match s with
  | [] => false
  | _ :: s' => re_search p s'
  end.

(** [re.split(re.escape(sep), s)] for a non-empty literal [sep]: the
    pieces between the non-overlapping occurrences of [sep], scanning
    from the left.  [skip] counts the characters of a matched separator
    still to pass over; [acc] is the current piece, reversed. *)
Fixpoint re_split_go (sep : str) (skip : nat) (acc : str) (s : str)
  : list str :=
  match s with
  | [] => [rev acc]
  | c :: s' =>
      match skip with
      | S k => re_split_go sep k acc s'
      | O =>
          if startswith sep s
          then rev acc :: re_split_go sep (length sep - 1)%nat [] s'
          else re_split_go sep 0 (c :: acc) s'
      end
  end.

Definition re_split (sep s : str) : list str := re_split_go sep 0 [] s.

(** [sep.join(parts)] *)
Fixpoint join (sep : str) (parts : list str) : str :=
  match parts with
  | [] => []
  | [p] => p
  | p :: ps => p ++ sep ++ join sep ps
  end.

(** Truth value of a list: empty lists are false. *)
Definition nonempty {A} (l : list A) : bool :=
  match l with [] => false | _ => true end.

End Py.

Import Py.

Notation "'let*' p := c1 'in' c2" := (rbind c1 (fun p => c2))
  (at level 10, p pattern, c1 at level 100, c2 at level 200).

(** ** Documents

    A [Document] of [langchain_core]: a text and the metadata of the
    page it comes from (source file, page number, ...). *)

Record Document := mkDocument {
  page_content : str;
  metadata : list (string * str)
}.

(** ** The text splitter

    [RecursiveCharacterTextSplitter] of [langchain_text_splitters], as
    the source configures it: [chunk_size] and [chunk_overlap] given,
    [length_function=len], and the defaults left in place (separators
    blank line, newline, blank and the empty string, taken literally;
    separators kept at the start of the piece that follows them; chunks
    stripped of surrounding white space; no start index recorded). *)

Module TextSplitter.

Record RecursiveCharacterTextSplitter := mkSplitter {
  _chunk_size : Z;
  _chunk_overlap : Z;
  _separators : list str
}.

Definition newline : str := ["010"%char].
Definition default_separators : list str :=
  [newline ++ newline; newline; lit " "; lit ""].

(** [_split_text_with_regex(text, separator, keep_separator=True)].
    With a separator, [re.split] on the parenthesised pattern yields
    piece, separator, piece, ..., piece; each separator is glued to the
    front of the piece after it, the first piece stands alone.  Without
    one the text is cut into its characters.  Empty pieces are dropped. *)
Definition _split_text_with_regex (text separator : str) : list str :=
  let splits :=
    if nonempty separator then
      match re_split separator text with
      | [] => []
      | p0 :: ps => p0 :: map (app separator) ps
      end
    else map (fun c => [c]) text in
  List.filter nonempty splits.

Section Splitter.

Variable self : RecursiveCharacterTextSplitter.

(** [_join_docs]: join, strip, and [None] for an empty text. *)
Definition _join_docs (docs : list str) (separator : str) : option str :=
  let text := strip (join separator docs) in
  if nonempty text then Some text else None.

(** The inner [while] of [_merge_splits]: drop pieces from the front of
    [current_doc] until what is left fits the overlap and leaves room
    for the piece of length [_len].  Indexing an empty [current_doc]
    raises. *)
Fixpoint shrink (_len separator_len total : Z) (current_doc : list str)
  : result (Z * list str) :=
  if (total >? _chunk_overlap self)
     || ((total + _len
          + (if 0 <? len current_doc then separator_len else 0)
          >? _chunk_size self)
         && (total >? 0))
  then
    match current_doc with
    | [] => Raise IndexError
    | d0 :: rest =>
        shrink _len separator_len
          (total - (len d0
                    + (if 1 <? len current_doc then separator_len else 0)))
          rest
    end
  else Ok (total, current_doc).

(** The [for] loop of [_merge_splits], with its three variables.  (The
    warning logged for a chunk longer than the chunk size changes
    nothing and is left out.) *)
Fixpoint merge_loop (separator : str) (splits : list str)
    (docs : list str) (current_doc : list str) (total : Z)
  : result (list str) :=
  match splits with
  | [] => Ok (docs ++ option_list (_join_docs current_doc separator))
  | d :: splits' =>
      let separator_len := len separator in
      let _len := len d in
      let* (docs, total, current_doc) :=
        (if total + _len
            + (if 0 <? len current_doc then separator_len else 0)
            >? _chunk_size self
         then
           if 0 <? len current_doc then
             let docs := docs ++ option_list (_join_docs current_doc separator) in
             let* (total, current_doc) :=
               shrink _len separator_len total current_doc in
             Ok (docs, total, current_doc)
           else Ok (docs, total, current_doc)
         else Ok (docs, total, current_doc)) in
      let current_doc := current_doc ++ [d] in
      merge_loop separator splits' docs current_doc
        (total + (_len + (if 1 <? len current_doc then separator_len else 0)))
  end.

Definition _merge_splits (splits : list str) (separator : str)
  : result (list str) :=
  merge_loop separator splits [] [] 0.

(** The [for] loop over the pieces in [_split_text]: pieces shorter
    than the chunk size are collected and merged; a longer piece is
    split again with the remaining separators ([recurse]), or kept whole
    when none remain.  The pieces carry their separator, so they are
    merged with the empty separator. *)
Fixpoint split_loop (recurse : option (str -> result (list str)))
    (splits : list str) (_good_splits final_chunks : list str)
  : result (list str) :=
  match splits with
  | [] =>
      if nonempty _good_splits then
        let* merged_text := _merge_splits _good_splits [] in
        Ok (final_chunks ++ merged_text)
      else Ok final_chunks
  | s :: splits' =>
      if len s <? _chunk_size self then
        split_loop recurse splits' (_good_splits ++ [s]) final_chunks
      else
        let* final_chunks :=
          (if nonempty _good_splits then
             let* merged_text := _merge_splits _good_splits [] in
             Ok (final_chunks ++ merged_text)
           else Ok final_chunks) in
        let* final_chunks :=
          match recurse with
          | None => Ok (final_chunks ++ [s])
          | Some f => let* other_info := f s in Ok (final_chunks ++ other_info)
          end in
        split_loop recurse splits' [] final_chunks
  end.

(** [_split_text(text, separators)].  The first separator that is empty
    or occurs in the text is used, and the separators after it are left
    for the pieces that are still too long; when none qualifies the
    last separator of the list is used and nothing is left.  [last] is
    that last separator (it is the same for every suffix of the list). *)
Fixpoint _split_text_from (last : str) (separators : list str) (text : str)
  {struct separators} : result (list str) :=
  match separators with
  | [] => split_loop None (_split_text_with_regex text last) [] []
  | _s :: new_separators =>
      if negb (nonempty _s) then
        split_loop None (_split_text_with_regex text _s) [] []
      else if re_search _s text then
        split_loop
          (match new_separators with
           | [] => None
           | _ => Some (_split_text_from last new_separators)
           end)
          (_split_text_with_regex text _s) [] []
      else _split_text_from last new_separators text
  end.

Definition _split_text (text : str) (separators : list str)
  : result (list str) :=
  match List.last (map Some separators) None with
  | None => Raise IndexError
  | Some last => _split_text_from last separators text
  end.

(** [split_text(text)] *)
Definition split_text (text : str) : result (list str) :=
  _split_text text (_separators self).

(** [split_documents(documents)]: every page is split on its own, and a
    chunk carries a copy of the metadata of its page. *)
Fixpoint split_documents (documents : list Document)
  : result (list Document) :=
  match documents with
  | [] => Ok []
  | doc :: documents' =>
      let* chunks := split_text (page_content doc) in
      let* others := split_documents documents' in
      Ok (map (fun chunk => mkDocument chunk (metadata doc)) chunks ++ others)
  end.

End Splitter.

End TextSplitter.

(** ** The outside world

    What the script calls and does not define: the file system, the PDF
    parser, the embedding service and the language model.  Each call
    reads the state of the world, may change it, and may raise.  The
    distance between two embedding vectors is computed in floating
    point by the index; only its order matters here, so its value is
    kept as a rational. *)

Record Services := mkServices {
  World : Type;
  Vec : Type;
  (** [Path(p).exists()], taken to answer: an [OSError] of the check
      itself is not modelled *)
  Path_exists : str -> World -> bool;
  (** [PyPDFLoader(p).load()]: one document per page *)
  PyPDFLoader_load : str -> World -> result (list Document) * World;
  (** [OllamaEmbeddings(model=m).embed_documents(texts)] *)
  embed_documents : str -> list str -> World -> result (list Vec) * World;
  (** [OllamaEmbeddings(model=m).embed_query(text)] *)
  embed_query : str -> str -> World -> result Vec * World;
  (** squared L2 distance, as the flat index computes it *)
  l2_distance : Vec -> Vec -> Q;
  (** [OllamaLLM(model=m, temperature=t).invoke(prompt)] *)
  OllamaLLM_invoke :
    str -> Z -> list (string * str) -> World -> result str * World
}.

(** ** The vector store

    [FAISS] of [langchain_community] over a flat L2 index: the chunks
    with their vectors, in insertion order, and the embedding model
    used for queries. *)

Module VectorStore.

Section Index.

Variable sv : Services.

Record FAISS := mkFAISS {
  embedding_function : str;
  index : list (Vec sv * Document)
}.

(** Insertion into a list ordered by distance to [q]; among equal
    distances the element inserted comes first. *)
Fixpoint insert_by_distance (q : Vec sv) (x : Vec sv * Document)
    (l : list (Vec sv * Document)) : list (Vec sv * Document) :=
  match l with
  | [] => [x]
  | y :: l' =>
      if Qle_bool (l2_distance sv q x.1) (l2_distance sv q y.1)
      then x :: l
      else y :: insert_by_distance q x l'
  end.

(** The index entries by increasing distance to [q] (entries at equal
    distance keep their insertion order). *)
Definition by_distance (q : Vec sv) (l : list (Vec sv * Document))
  : list (Vec sv * Document) :=
  foldr (insert_by_distance q) [] l.

(** [index.search(q, k)]: the [k] nearest entries, nearest first; all
    of them when the index holds fewer than [k]. *)
Definition index_search (vs : FAISS) (q : Vec sv) (k : nat)
  : list (Vec sv * Document) :=
  take k (by_distance q (index vs)).

(** A retriever: [vectorstore.as_retriever(search_kwargs={"k": k})]. *)
Record VectorStoreRetriever := mkRetriever {
  vectorstore : FAISS;
  search_kwargs_k : nat
}.

Definition as_retriever (vs : FAISS) (k : nat) : VectorStoreRetriever :=
  mkRetriever vs k.

End Index.

Arguments mkFAISS {sv}.
Arguments embedding_function {sv}.
Arguments index {sv}.
Arguments insert_by_distance {sv}.
Arguments by_distance {sv}.
Arguments index_search {sv}.
Arguments mkRetriever {sv}.
Arguments vectorstore {sv}.
Arguments search_kwargs_k {sv}.
Arguments as_retriever {sv}.

End VectorStore.

Import VectorStore.

(** ** The script [samples/rag.py] *)

Module Rag.

Import TextSplitter.

(** Configuration *)
Definition PDF_PATH : str := lit "document.pdf".
Definition CHUNK_SIZE : Z := 256.
Definition CHUNK_OVERLAP : Z := 32.
Definition EMBEDDING_MODEL : str := lit "nomic-embed-text".

(** What a run leaves behind, in order: the elements it puts on the
    page and the calls it makes to the outside. *)
Inductive Event :=
| st_title (body : str)
| st_header (body : str)
| st_markdown (body : str)
| st_text (body : str)
| st_success (body : str)
| st_error (body : str)
| st_info (body : str)
| st_warning (body : str)
| st_write (body : str)
| st_spinner (body : str)
| st_text_input (label : str)
| st_button (label : str)
| st_form (key : str)
| st_form_submit_button (label : str)
| st_expander (label : str)
| st_exception (e : Exception)
| call_Path_exists (path : str)
| call_PyPDFLoader_load (path : str)
| call_embed_documents (model : str) (texts : list str)
| call_FAISS_init (model : str) (texts : list str)
| call_embed_query (model : str) (text : str)
| call_index_search (k : nat)
| call_OllamaLLM_invoke (model : str) (temperature : Z)
    (prompt : list (string * str)).

(** A piece of a prompt template: literal text or a [{variable}]. *)
Inductive Piece :=
| Text (s : str)
| Var (name : string).

Record OllamaLLM := mkOllamaLLM {
  model : str;
  temperature : Z
}.

Section Script.

Variable sv : Services.

(** The LCEL chain [{context: retriever | _format_docs, question:
    passthrough} | prompt | llm | StrOutputParser()]. *)
Record RagChain := mkRagChain {
  chain_retriever : VectorStoreRetriever sv;
  chain_prompt : list (string * list Piece);
  chain_llm : OllamaLLM
}.

(** The dictionary [{"chain": rag_chain, "retriever": retriever}]. *)
Record QABundle := mkQABundle {
  chain : RagChain;
  retriever : VectorStoreRetriever sv
}.

(** The values the script keeps in [st.session_state]. *)
Inductive PyVal :=
| PyNone
| PyFAISS (v : FAISS sv)
| PyDict (b : QABundle).

(** Truth value: [None] is false; a [FAISS] object defines neither
    [__bool__] nor [__len__] and is true; the dictionary has two keys
    and is true. *)
Definition truthy (v : PyVal) : bool :=
  match v with
  | PyNone => false
  | PyFAISS _ => true
  | PyDict _ => true
  end.

Definition is_None (v : PyVal) : bool :=
  match v with
  | PyNone => true
  | _ => false
  end.

Record State := mkState {
  world : World sv;
  session_state : gmap string PyVal;
  trace : list Event
}.

(** Computations of the script. *)
Definition M (A : Type) : Type := State -> result A * State.

Definition ret {A} (a : A) : M A := fun s => (Ok a, s).

Definition raise {A} (e : Exception) : M A := fun s => (Raise e, s).

Definition bind {A B} (c : M A) (k : A -> M B) : M B :=
  fun s =>
    match c s with
    | (Ok a, s') => k a s'
    | (Raise e, s') => (Raise e, s')
    end.

(** [try: body except Exception as e: handler] *)
Definition try_except {A} (body : M A) (handler : Exception -> M A) : M A :=
  fun s =>
    match body s with
    | (Ok a, s') => (Ok a, s')
    | (Raise e, s') => handler e s'
    end.

(** A pure library call that may raise. *)
Definition lift {A} (r : result A) : M A := fun s => (r, s).

(** Put an element on the page, or record a call. *)
Definition emit (e : Event) : M unit :=
  fun s => (Ok tt, mkState (world s) (session_state s) (trace s ++ [e])).

(** Call the outside: recorded, then answered by the world. *)
Definition call {A} (e : Event) (f : World sv -> result A * World sv) : M A :=
  fun s =>
    let (r, w) := f (world s) in
    (r, mkState w (session_state s) (trace s ++ [e])).

(** [key in st.session_state] *)
Definition session_contains (key : string) : M bool :=
  fun s => (Ok (bool_decide (is_Some (session_state s !! key))), s).

(** [st.session_state.key]; a missing attribute raises. *)
Definition session_get (key : string) : M PyVal :=
  fun s =>
    match session_state s !! key with
    | Some v => (Ok v, s)
    | None => (Raise (AttributeError key), s)
    end.

(** [st.session_state.key = v] *)
Definition session_set (key : string) (v : PyVal) : M unit :=
  fun s => (Ok tt, mkState (world s) (<[key := v]> (session_state s)) (trace s)).

End Script.

Arguments mkRagChain {sv}.
Arguments chain_retriever {sv}.
Arguments chain_prompt {sv}.
Arguments chain_llm {sv}.
Arguments mkQABundle {sv}.
Arguments chain {sv}.
Arguments retriever {sv}.
Arguments PyNone {sv}.
Arguments PyFAISS {sv}.
Arguments PyDict {sv}.
Arguments truthy {sv}.
Arguments is_None {sv}.
Arguments mkState {sv}.
Arguments world {sv}.
Arguments session_state {sv}.
Arguments trace {sv}.
Arguments ret {sv A}.
Arguments raise {sv A}.
Arguments bind {sv A B}.
Arguments try_except {sv A}.
Arguments lift {sv A}.
Arguments emit {sv}.
Arguments call {sv A}.
Arguments session_contains {sv}.
Arguments session_get {sv}.
Arguments session_set {sv}.

Notation "'let!' p := c1 'in' c2" := (bind c1 (fun p => c2))
  (at level 10, p pattern, c1 at level 100, c2 at level 200).
Notation "c1 ;; c2" := (bind c1 (fun _ => c2))
  (at level 100, c2 at level 200, right associativity).

Section Functions.

Variable sv : Services.

Local Abbreviation M := (M sv).

(** *** Library calls that reach the outside *)

(** [FAISS.from_documents(chunks, OllamaEmbeddings(model))]: embed the
    texts, then build the index.  The index takes its dimension from
    the first vector, so an empty list of vectors raises; so does a
    number of vectors other than the number of texts. *)
Definition FAISS_from_documents (chunks : list Document) (embeddings : str)
  : M (FAISS sv) :=
  let texts := map page_content chunks in
  let! vectors :=
    call (call_embed_documents embeddings texts)
         (embed_documents sv embeddings texts) in
  emit (call_FAISS_init embeddings texts) ;;
  match vectors with
  | [] => raise IndexError
  | _ =>
      if negb (length vectors =? length chunks)%nat
      then raise (mkException (lit "ValueError")
                    (lit "documents and embeddings expected to be equal length but len(documents)="
                       ++ lit (pretty (length chunks))
                       ++ lit " and len(embeddings)="
                       ++ lit (pretty (length vectors))))
      else ret (mkFAISS embeddings (zip vectors chunks))
  end.

(** [vectorstore.similarity_search(query, k)]: embed the query and
    return the documents of the [k] nearest entries. *)
Definition FAISS_similarity_search (vs : FAISS sv) (query : str) (k : nat)
  : M (list Document) :=
  let! q :=
    call (call_embed_query (embedding_function vs) query)
         (embed_query sv (embedding_function vs) query) in
  emit (call_index_search k) ;;
  ret (map snd (index_search vs q k)).

(** [retriever.invoke(query)] *)
Definition retriever_invoke (r : VectorStoreRetriever sv) (query : str)
  : M (list Document) :=
  FAISS_similarity_search (vectorstore r) query (search_kwargs_k r).

(** [template.format] with keyword arguments [vars]; a variable without
    a value raises. *)
Fixpoint format_template (t : list Piece) (vars : list (string * str))
  : result str :=
  match t with
  | [] => Ok []
  | Text s :: t' =>
      let* rest := format_template t' vars in Ok (s ++ rest)
  | Var name :: t' =>
      match List.find (fun kv => String.eqb kv.1 name) vars with
      | Some kv => let* rest := format_template t' vars in Ok (kv.2 ++ rest)
      | None => Raise (KeyError name)
      end
  end.

(** [prompt.invoke(vars)]: every message of the template, formatted. *)
Fixpoint format_messages (p : list (string * list Piece))
    (vars : list (string * str)) : result (list (string * str)) :=
  match p with
  | [] => Ok []
  | (role, t) :: p' =>
      let* body := format_template t vars in
      let* rest := format_messages p' vars in
      Ok ((role, body) :: rest)
  end.

(** *** The functions of the script *)

(** The splitter [load_and_split_pdf] builds. *)
Definition text_splitter : RecursiveCharacterTextSplitter :=
  mkSplitter CHUNK_SIZE CHUNK_OVERLAP default_separators.

(** Load PDF and split into chunks *)
Definition load_and_split_pdf (pdf_path : str) : M (list Document * Z) :=
  let! documents :=
    call (call_PyPDFLoader_load pdf_path) (PyPDFLoader_load sv pdf_path) in
  let! chunks := lift (split_documents text_splitter documents) in
  ret (chunks, len documents).

(** Create vector store from document chunks *)
Definition create_vectorstore (chunks : list Document) (embedding_model : str)
  : M (FAISS sv) :=
  let embeddings := embedding_model in
  let! vectorstore := FAISS_from_documents chunks embeddings in
  ret vectorstore.

(** [Path(PDF_PATH).exists()] *)
Definition pdf_path_exists : M bool :=
  call (call_Path_exists PDF_PATH)
       (fun w => (Ok (Path_exists sv PDF_PATH w), w)).

(** The body of the [try] statement of [ingest_pdf]. *)
Definition ingest_pdf_try : M (bool * str * option (FAISS sv)) :=
  emit (st_spinner (lit "Loading PDF from " ++ PDF_PATH ++ lit "...")) ;;
  let! (chunks, num_pages) := load_and_split_pdf PDF_PATH in
  emit (st_info (lit "Loaded " ++ lit (pretty num_pages)
                   ++ lit " pages, split into "
                   ++ lit (pretty (len chunks)) ++ lit " chunks")) ;;
  emit (st_spinner (lit "Creating embeddings using " ++ EMBEDDING_MODEL
                      ++ lit "...")) ;;
  let! vectorstore := create_vectorstore chunks EMBEDDING_MODEL in
  ret (true, lit "✅ PDF ingested successfully!", Some vectorstore).

(** Process PDF and create vector store *)
Definition ingest_pdf : M (bool * str * option (FAISS sv)) :=
  let! exists_ := pdf_path_exists in
  if negb exists_ then
    ret (false,
         lit "❌ " ++ PDF_PATH
           ++ lit " not found. Please upload or download a PDF first.",
         None)
  else
    try_except ingest_pdf_try
      (fun e => ret (false, lit "❌ Error: " ++ exc_str e, None)).

Definition system_prompt : str :=
  lit "Use the following pieces of context to answer the question at the end. "
  ++ lit "If you don't know the answer, just say that you don't know, don't try to make up an answer. "
  ++ lit "The user will probably ask questions about a specific workstation product from HP."
  ++ lit "Context will be provided from the user's manual. If they ask about anything else, "
  ++ lit "politely inform them that you can only answer questions related to this specific HP workstation.".

(** [_format_docs] *)
Definition _format_docs (docs : list Document) : str :=
  join (newline ++ newline) (map page_content docs).

(** Initialize a retrieval-augmented generation chain with Ollama LLM. *)
Definition initialize_qa_chain (vectorstore : FAISS sv) (model_name : str)
  : QABundle sv :=
  let llm := mkOllamaLLM model_name 0 in
  let prompt :=
    [("system"%string, [Text system_prompt]);
     ("human"%string,
      [Text (lit "Context:" ++ newline); Var "context";
       Text (newline ++ newline ++ lit "Question: "); Var "question";
       Text (newline ++ newline ++ lit "Answer:")])] in
  let retriever := as_retriever vectorstore 3 in
  let rag_chain := mkRagChain retriever prompt llm in
  mkQABundle rag_chain retriever.

(** [rag_chain.invoke(question)]: retrieve and format the context, fill
    the prompt, ask the model; the output parser returns the model's
    text as it is. *)
Definition chain_invoke (c : RagChain sv) (question : str) : M str :=
  let! docs := retriever_invoke (chain_retriever c) question in
  let context := _format_docs docs in
  let! prompt_value :=
    lift (format_messages (chain_prompt c)
            [("context"%string, context); ("question"%string, question)]) in
  call (call_OllamaLLM_invoke (model (chain_llm c)) (temperature (chain_llm c))
          prompt_value)
       (OllamaLLM_invoke sv (model (chain_llm c)) (temperature (chain_llm c))
          prompt_value).

(** *** The page

    Streamlit runs the script from top to bottom on every interaction.
    A widget returns its current value: the text of the model field,
    whether the button was the one just clicked, the text of the
    question field, whether the form was just submitted. *)

Record Inputs := mkInputs {
  model_name : str;
  process_pdf_clicked : bool;
  question : str;
  get_answer_clicked : bool
}.

(** Initialize session state *)
Definition initialize_session_state : M unit :=
  let! present := session_contains "vectorstore" in
  (if negb present then session_set "vectorstore" PyNone else ret tt) ;;
  let! present := session_contains "qa_chain" in
  (if negb present then session_set "qa_chain" PyNone else ret tt).

(** The body of [if st.button("Process PDF")]. *)
Definition process_pdf (model_name : str) : M unit :=
  let! (success, message, vectorstore) := ingest_pdf in
  if (success : bool) then
    emit (st_success message) ;;
    session_set "vectorstore"
      (match vectorstore with Some v => PyFAISS v | None => PyNone end) ;;
    let! stored := session_get "vectorstore" in
    if truthy stored then
      match stored with
      | PyFAISS v =>
          session_set "qa_chain" (PyDict (initialize_qa_chain v model_name))
      | _ => raise (AttributeError "as_retriever")
      end
    else ret tt
  else
    emit (st_error message).

(** Sidebar for configuration *)
Definition sidebar (inp : Inputs) : M unit :=
  emit (st_header (lit "Configuration")) ;;
  emit (st_text_input (lit "Ollama Model")) ;;
  let model_name := model_name inp in
  emit (st_markdown (lit "---")) ;;
  emit (st_markdown (lit "### Instructions")) ;;
  emit (st_markdown (lit "
    1. Click '🔄 Process PDF' to ingest the PDF and create the vector store
    2. Ask questions below
    
    Note: The vector store is kept in memory for the current session only.
    ")) ;;
  emit (st_markdown (lit "---")) ;;
  emit (st_markdown (lit "### Process PDF and Create Vector Store")) ;;
  emit (st_markdown
          (lit "Process the PDF and create the vector store in memory")) ;;
  emit (st_button (lit "🔄 Process PDF")) ;;
  (if process_pdf_clicked inp then process_pdf model_name else ret tt) ;;
  emit (st_markdown (lit "---")) ;;
  emit (st_markdown (lit "### File Status")) ;;
  let! pdf_exists := pdf_path_exists in
  emit (st_text ((if (pdf_exists : bool) then lit "✅" else lit "❌")
                 ++ lit " " ++ PDF_PATH)).

(** Display source documents: [for i, doc in enumerate(source_docs, 1)] *)
Fixpoint display_sources (i : Z) (source_docs : list Document) : M unit :=
  match source_docs with
  | [] => ret tt
  | doc :: source_docs' =>
      emit (st_markdown (lit "**Source " ++ lit (pretty i) ++ lit ":**")) ;;
      emit (st_text (take 500 (page_content doc) ++ lit "...")) ;;
      emit (st_markdown (lit "---")) ;;
      display_sources (i + 1) source_docs'
  end.

(** The body of [if submit_button and question]. *)
Definition answer_question (question : str) : M unit :=
  emit (st_spinner (lit "Processing...")) ;;
  try_except
    (let! qa_chain := session_get "qa_chain" in
     let! qa_bundle :=
       match qa_chain with
       | PyDict b => ret b
       | _ => raise (TypeError "object is not subscriptable")
       end in
     let! answer := chain_invoke (chain qa_bundle) question in
     emit (st_markdown (lit "### Answer")) ;;
     emit (st_write answer) ;;
     emit (st_expander (lit "View Source Context")) ;;
     let! source_docs := retriever_invoke (retriever qa_bundle) question in
     display_sources 1 source_docs)
    (fun e =>
       emit (st_error (lit "Error: " ++ exc_str e)) ;;
       emit (st_info (lit "Make sure Ollama is running: `ollama serve`"))).

(** Main interface *)
Definition main_interface (inp : Inputs) : M unit :=
  let! vectorstore := session_get "vectorstore" in
  let! missing :=
    if is_None vectorstore then ret true
    else let! qa_chain := session_get "qa_chain" in ret (is_None qa_chain) in
  if (missing : bool) then
    emit (st_warning
            (lit "⚠️ Please process the PDF and load the vector store using the sidebar."))
  else
    emit (st_form (lit "question_form")) ;;
    emit (st_text_input (lit "Ask a question about your document:")) ;;
    emit (st_form_submit_button (lit "Get Answer")) ;;
    if get_answer_clicked inp && nonempty (question inp)
    then answer_question (question inp)
    else ret tt.

(** The string literal of lines 6-8.  It is the second statement of the
    module (the docstring is the string of lines 1-4), an expression
    statement of its own: Streamlit's magic passes it to [st.write]. *)
Definition bare_string : str := lit "
Simple RAG Application using Streamlit, Ollama, and in-memory vector store
".

(** The whole script. *)
Definition script (inp : Inputs) : M unit :=
  emit (st_write bare_string) ;;
  initialize_session_state ;;
  emit (st_title (lit "RAG PDF Question Answering")) ;;
  sidebar inp ;;
  main_interface inp.

(** One run.  An exception that nothing catches ends the run; Streamlit
    shows it on the page.  What was stored before stays stored. *)
Definition run (inp : Inputs) (s : State sv) : State sv :=
  match script inp s with
  | (Ok _, s') => s'
  | (Raise e, s') =>
      mkState (world s') (session_state s') (trace s' ++ [st_exception e])
  end.

(** The session states a session can be in: none stored at first, then
    whatever runs leave, for any inputs and any state of the world. *)
Inductive reachable : gmap string (PyVal sv) -> Prop :=
| reachable_init : reachable ∅
| reachable_run inp s :
    reachable (session_state s) -> reachable (session_state (run inp s)).

End Functions.

End Rag.

(** ** Notions the properties are stated with *)

Module Props.

Import TextSplitter Rag.

(** *** About the splitter *)

(** Cutting a text into its characters. *)
Definition chars (s : str) : list str := map (fun c => [c]) s.

(** The windows of [cs] characters that start every [cs - co]
    characters of [t], the last one ending with the text; [fuel] bounds
    their number. *)
Fixpoint windows (cs co : nat) (fuel : nat) (t : str) : list str :=
  match fuel with
  | O => []
  | S fuel' =>
      match t with
      | [] => []
      | _ => if (length t <=? cs)%nat then [t]
             else take cs t :: windows cs co fuel' (drop (cs - co) t)
      end
  end.

(** A text without any white space. *)
Definition nospace (s : str) : bool := forallb (fun c => negb (isspace c)) s.

(** The splitter with the default separators. *)
Definition splitter_of (cs co : nat) : RecursiveCharacterTextSplitter :=
  mkSplitter (Z.of_nat cs) (Z.of_nat co) default_separators.

(** [chunk] is not empty and is the text of [page] from [offset] on. *)
Definition starts_at (page : str) (offset : nat) (chunk : str) : bool :=
  nonempty chunk && startswith chunk (drop offset page).

(** The chunks are as many as the offsets and each starts at its
    offset. *)
Definition chunks_start_at (page : str) (offsets : list nat)
    (chunks : list str) : Prop :=
  Forall2 (fun offset chunk => starts_at page offset chunk = true)
    offsets chunks.

(** The last [n] characters of [c1] are the first [n] of [c2]. *)
Definition overlap (n : nat) (c1 c2 : str) : Prop :=
  drop (length c1 - n) c1 = take n c2.

(** A page of 600 characters: the word "word" and a blank, 120 times. *)
Definition words_page : str := concat (replicate 120 (lit "word ")).

(** A page of 600 characters without white space. *)
Definition solid_page : str := replicate 600 "a"%char.

(** A page of two long words: 200 times a, a blank, 200 times b. *)
Definition two_words_page : str :=
  replicate 200 "a"%char ++ lit " " ++ replicate 200 "b"%char.

(** *** About the script *)

Section Script.

Variable sv : Services.

(** A computation that leaves [st.session_state] as it found it,
    whatever it returns or raises. *)
Definition preserves_session {A} (c : M sv A) : Prop :=
  forall s, session_state (c s).2 = session_state s.

(** The events added to the trace between [s] and [s']. *)
Definition events_since (s s' : State sv) : list Event :=
  drop (length (trace s)) (trace s').

(** The state after the existence check of [ingest_pdf]. *)
Definition after_check (s : State sv) : State sv :=
  mkState (world s) (session_state s) (trace s ++ [call_Path_exists PDF_PATH]).

Definition not_found_message : str :=
  lit "❌ document.pdf not found. Please upload or download a PDF first.".

Definition success_message : str := lit "✅ PDF ingested successfully!".

(** A query pipeline stored in the session was built from the index
    stored beside it. *)
Definition paired (ss : gmap string (PyVal sv)) : Prop :=
  forall b, ss !! "qa_chain" = Some (PyDict b) ->
    exists v m, ss !! "vectorstore" = Some (PyFAISS v)
                /\ b = initialize_qa_chain sv v m.

(** Nothing ingested yet. *)
Definition uninitialized (ss : gmap string (PyVal sv)) : Prop :=
  ss !! "vectorstore" = Some PyNone /\ ss !! "qa_chain" = Some PyNone.

(** An index, and the pipeline built from it with model name [m]. *)
Definition indexed (ss : gmap string (PyVal sv)) (v : FAISS sv) (m : str)
  : Prop :=
  ss !! "vectorstore" = Some (PyFAISS v)
  /\ ss !! "qa_chain" = Some (PyDict (initialize_qa_chain sv v m)).

(** The session state after the two [if ... not in st.session_state]. *)
Definition initialized (ss : gmap string (PyVal sv))
  : gmap string (PyVal sv) :=
  let ss1 :=
    if bool_decide (is_Some (ss !! "vectorstore")) then ss
    else <["vectorstore" := PyNone]> ss in
  if bool_decide (is_Some (ss1 !! "qa_chain")) then ss1
  else <["qa_chain" := PyNone]> ss1.

(** An event that is not a call of a language model other than [m0]. *)
Definition no_other_model (m0 : str) (e : Event) : Prop :=
  match e with
  | call_OllamaLLM_invoke m _ _ => m = m0
  | _ => True
  end.

(** From a state whose session state is [ss], [c] keeps the session
    state, adds only events that satisfy [P], and returns only values
    that satisfy [Q]. *)
Definition triple {A} (ss : gmap string (PyVal sv)) (P : Event -> Prop)
    (c : M sv A) (Q : A -> Prop) : Prop :=
  forall s, session_state s = ss ->
    session_state (c s).2 = ss
    /\ (exists evs, trace (c s).2 = trace s ++ evs /\ Forall P evs)
    /\ (forall a, (c s).1 = Ok a -> Q a).

(** [x] is at most as far from [q] as [y]. *)
Definition closer (q : Vec sv) (x y : Vec sv * Document) : Prop :=
  (l2_distance sv q x.1 <= l2_distance sv q y.1)%Q.

(** The prompt the chain sends for a context and a question. *)
Definition prompt_value (context question : str) : list (string * str) :=
  [("system"%string, system_prompt ++ []);
   ("human"%string,
    (lit "Context:" ++ newline) ++ context
      ++ (newline ++ newline ++ lit "Question: ") ++ question
      ++ (newline ++ newline ++ lit "Answer:") ++ [])].

End Script.

Arguments preserves_session sv {A} c.
Arguments triple sv {A} ss P c Q.

End Props.

(** ** A small world to run the script in

    The PDF is there or not; the parser returns the pages the world
    holds; the embedding of a text is its length; the services answer
    while Ollama is up and refuse the connection otherwise. *)

Module Demo.

Import TextSplitter Rag Props.

Record DemoWorld := mkDemoWorld {
  has_pdf : bool;
  pdf_pages : result (list Document);
  ollama_up : bool
}.

Definition ConnectionError : Exception :=
  mkException (lit "ConnectionError") (lit "connection refused").

Definition services (W : Type) (has : W -> bool)
    (pages : W -> result (list Document)) (up : W -> bool) : Services :=
  {| World := W;
     Vec := Z;
     Path_exists := fun _ w => has w;
     PyPDFLoader_load := fun _ w => (pages w, w);
     embed_documents := fun _ texts w =>
       (if up w then Ok (map len texts) else Raise ConnectionError, w);
     embed_query := fun _ text w =>
       (if up w then Ok (len text) else Raise ConnectionError, w);
     l2_distance := fun x y => inject_Z ((x - y) * (x - y));
     OllamaLLM_invoke := fun m _ _ w =>
       (if up w then Ok (lit "An answer from " ++ m)
        else Raise ConnectionError, w) |}.

(** A world whose services may be down. *)
Definition demo : Services := services DemoWorld has_pdf pdf_pages ollama_up.


Definition manual : list Document :=
  [mkDocument (lit "The workstation has two fans.") [("page"%string, lit "0")];
   mkDocument (lit "Press the power button to start it.")
     [("page"%string, lit "1")]].

Definition fresh (w : World demo) : State demo := mkState w ∅ [].

(** No PDF on disk. *)
Definition s_missing : State demo :=
  fresh (mkDemoWorld false (Ok manual) true).

(** The PDF is there, Ollama is down. *)
Definition s_down : State demo := fresh (mkDemoWorld true (Ok manual) false).

(** The PDF is there, Ollama is up. *)
Definition s_ready : State demo := fresh (mkDemoWorld true (Ok manual) true).

Definition click_process (m : str) : Inputs := mkInputs m true [] false.

Definition ask (m q : str) : Inputs := mkInputs m false q true.

(** The session after a click on the button with the model field at
    its default. *)
Definition s_indexed : State demo := run demo (click_process (lit "llama3.2")) s_ready.

(** The index a successful ingest of [manual] builds. *)
Definition manual_index : FAISS demo :=
  mkFAISS (sv:=demo) EMBEDDING_MODEL
    (zip (map len (map page_content manual)) manual).

(** Five chunks of 1, 3, 4, 9 and 20 characters. *)
Definition shelf : list Document :=
  map (fun t => mkDocument (lit t) [])
    ["a"; "abc"; "abcd"; "abcdefghi"; "abcdefghijklmnopqrst"]%string.

Definition index_of (sv : Services) (embed : str -> Vec sv)
    (docs : list Document) : FAISS sv :=
  mkFAISS EMBEDDING_MODEL (map (fun d => (embed (page_content d), d)) docs).

Definition shelf_index : FAISS demo := index_of demo len shelf.


End Demo.

(** ** Shapes of chunks and of the page *)

Module Shapes.
Import TextSplitter Rag Props.

(** [c] occurs in [t] as a run of consecutive characters. *)
Definition substring {A} (c t : list A) : Prop :=
  exists pre post, t = pre ++ c ++ post.

(** Neither the first nor the last character is white space. *)
Definition trimmed (s : str) : Prop :=
  (forall c, head s = Some c -> isspace c = false)
  /\ (forall c, last s = Some c -> isspace c = false).

(** What holds of a chunk cut from [text] for chunk size [cs]: it is
    not empty, has at most [cs] characters, is trimmed, and occurs in
    the text. *)
Definition chunk_of (cs : Z) (text chunk : str) : Prop :=
  chunk <> [] /\ len chunk <= cs /\ trimmed chunk /\ substring chunk text.

(** The pieces of [re.split] put back together around the separator. *)
Definition glue (sep : str) (pieces : list str) : str :=
  match pieces with
  | [] => []
  | p0 :: ps => p0 ++ concat (map (app sep) ps)
  end.

(** A list of separators that is empty or ends with the empty string. *)
Definition ends_with_empty (seps : list str) : Prop :=
  seps = [] \/ exists pre, seps = pre ++ [[]].

(** White space only. *)
Definition blank (s : str) : bool := forallb isspace s.

(** The events of an ingest that goes through. *)
Definition ingest_events (documents chunks : list Document) : list Event :=
  [call_Path_exists PDF_PATH;
   st_spinner (lit "Loading PDF from document.pdf...");
   call_PyPDFLoader_load PDF_PATH;
   st_info (lit "Loaded " ++ lit (pretty (len documents))
              ++ lit " pages, split into " ++ lit (pretty (len chunks))
              ++ lit " chunks");
   st_spinner (lit "Creating embeddings using nomic-embed-text...");
   call_embed_documents EMBEDDING_MODEL (map page_content chunks);
   call_FAISS_init EMBEDDING_MODEL (map page_content chunks)].

(** What every run puts on the page first: the string that Streamlit's
    magic writes, and the title. *)
Definition banner_events : list Event :=
  [st_write bare_string; st_title (lit "RAG PDF Question Answering")].

(** What the sidebar puts on the page when the button is not clicked;
    [pdf_exists] is what the existence check answers. *)
Definition sidebar_events (pdf_exists : bool) : list Event :=
  [st_header (lit "Configuration");
   st_text_input (lit "Ollama Model");
   st_markdown (lit "---");
   st_markdown (lit "### Instructions");
   st_markdown (lit "
    1. Click '🔄 Process PDF' to ingest the PDF and create the vector store
    2. Ask questions below
    
    Note: The vector store is kept in memory for the current session only.
    ");
   st_markdown (lit "---");
   st_markdown (lit "### Process PDF and Create Vector Store");
   st_markdown (lit "Process the PDF and create the vector store in memory");
   st_button (lit "🔄 Process PDF");
   st_markdown (lit "---");
   st_markdown (lit "### File Status");
   call_Path_exists PDF_PATH;
   st_text ((if pdf_exists then lit "✅" else lit "❌") ++ lit " document.pdf")].

(** The question form. *)
Definition form_events : list Event :=
  [st_form (lit "question_form");
   st_text_input (lit "Ask a question about your document:");
   st_form_submit_button (lit "Get Answer")].

Definition warning_event : Event :=
  st_warning
    (lit "⚠️ Please process the PDF and load the vector store using the sidebar.").

(** What is shown when a query raises [e]. *)
Definition failure_events (e : Exception) : list Event :=
  [st_error (lit "Error: " ++ exc_str e);
   st_info (lit "Make sure Ollama is running: `ollama serve`")].

(** What is shown for an answer, before the sources. *)
Definition answer_events (answer : str) : list Event :=
  [st_markdown (lit "### Answer");
   st_write answer;
   st_expander (lit "View Source Context")].

(** What is shown for the sources, numbered from [i]. *)
Fixpoint source_events (i : Z) (source_docs : list Document) : list Event :=
  match source_docs with
  | [] => []
  | doc :: source_docs' =>
      [st_markdown (lit "**Source " ++ lit (pretty i) ++ lit ":**");
       st_text (take 500 (page_content doc) ++ lit "...");
       st_markdown (lit "---")]
      ++ source_events (i + 1) source_docs'
  end.

(** The state [s] with [w] for the world and [evs] added to the
    trace. *)
Definition after {sv : Services} (s : State sv) (w : World sv) (evs : list Event)
  : State sv :=
  mkState w (session_state s) (trace s ++ evs).

(** The documents of the three entries of [v] nearest to [qv]. *)
Definition nearest_docs {sv : Services} (v : FAISS sv) (qv : Vec sv) : list Document :=
  map snd (index_search v qv 3).

(** What the query handler does before it asks the model. *)
Definition retrieval_events {sv : Services} (v : FAISS sv) (q : str) : list Event :=
  [call_embed_query (embedding_function v) q; call_index_search 3].

(** The session holds the pipeline built from [v] for the model [m]. *)
Definition holds_pipeline {sv : Services} (s : State sv) (v : FAISS sv) (m : str) : Prop :=
  session_state s !! "qa_chain" = Some (PyDict (initialize_qa_chain sv v m)).

End Shapes.

(** ** More worlds *)

Module Metered.
Import TextSplitter Rag Props Demo Shapes.

(** A scanned page: blanks and a newline. *)
Definition s_scan : State demo :=
  fresh (mkDemoWorld true
           (Ok [mkDocument (lit "   " ++ newline ++ lit " ") []]) true).

(** A world that counts: the embedding service answers as many queries
    as the world has left and then refuses; the model answers or not. *)
Definition metered : Services :=
  {| World := nat * bool;
     Vec := Z;
     Path_exists := fun _ _ => true;
     PyPDFLoader_load := fun _ w => (Ok manual, w);
     embed_documents := fun _ texts w => (Ok (map len texts), w);
     embed_query := fun _ text w =>
       match w.1 with
       | O => (Raise ConnectionError, w)
       | S n => (Ok (len text), (n, w.2))
       end;
     l2_distance := fun x y => inject_Z ((x - y) * (x - y));
     OllamaLLM_invoke := fun m _ _ w =>
       (if w.2 then Ok (lit "An answer from " ++ m)
        else Raise ConnectionError, w) |}.

Definition metered_index : FAISS metered := index_of metered len shelf.

(** A session of that world that holds an index and its pipeline. *)
Definition asking (w : World metered) : State metered :=
  mkState w
    (<["qa_chain" := PyDict (initialize_qa_chain metered metered_index
                               (lit "llama3.2"))]>
       (<["vectorstore" := PyFAISS metered_index]> ∅))
    [].

Definition fans_prompt : list (string * str) :=
  prompt_value (_format_docs (nearest_docs metered_index 4)) (lit "fans").

End Metered.

(** ** The splitter on text without white space *)

Module SplitterFacts.
Import TextSplitter Rag Props.

Lemma nospace_cons c s : nospace (c :: s) = true <-> isspace c = false /\ nospace s = true.
Proof.
  unfold nospace; simpl. rewrite andb_true_iff, negb_true_iff. tauto.
Qed.

Lemma nospace_app s t : nospace (s ++ t) = nospace s && nospace t.
Proof. unfold nospace. apply forallb_app. Qed.

Lemma nospace_rev s : nospace (rev s) = nospace s.
Proof.
  induction s as [|c s IH]; [done|].
  simpl rev. rewrite nospace_app, IH. unfold nospace; simpl.
  rewrite andb_true_r. apply andb_comm.
Qed.

Lemma lstrip_nospace s : nospace s = true -> lstrip s = s.
Proof.
  destruct s as [|c s]; [done|].
  intros [Hc _]%nospace_cons. simpl. by rewrite Hc.
Qed.

Lemma strip_nospace s : nospace s = true -> strip s = s.
Proof.
  intros H. unfold strip, rstrip.
  rewrite (lstrip_nospace s H), lstrip_nospace by (by rewrite nospace_rev).
  apply rev_involutive.
Qed.

Lemma join_chars s : join [] (chars s) = s.
Proof.
  induction s as [|c [|c' s] IH]; [done..|].
  change (join [] (chars (c :: c' :: s))) with (c :: join [] (chars (c' :: s))).
  by rewrite IH.
Qed.

Lemma chars_app s t : chars (s ++ t) = chars s ++ chars t.
Proof. apply map_app. Qed.

Lemma len_chars s : len (chars s) = len s.
Proof. unfold len, chars. by rewrite length_map. Qed.

Lemma startswith_head_ne a p b s : a <> b -> startswith (a :: p) (b :: s) = false.
Proof.
  intros Hne. simpl. destruct (Ascii.eqb a b) eqn:E; [|done].
  by apply Ascii.eqb_eq in E.
Qed.

(** A pattern that starts with white space does not occur in a text
    that has none. *)
Lemma re_search_nospace a p s :
  isspace a = true -> nospace s = true -> re_search (a :: p) s = false.
Proof.
  intros Ha. induction s as [|b s IH]; [done|].
  intros [Hb Hs]%nospace_cons. cbn [re_search].
  rewrite startswith_head_ne, IH; [done..|].
  intros ->. congruence.
Qed.


Lemma if_same_0 (b : bool) : (if b then 0 else 0) = 0.
Proof. by destruct b. Qed.

(** Decide the integer comparisons of a goal. *)
Ltac zbool :=
  repeat match goal with
    | |- context [?a >? ?b] => destruct (Z.gtb_spec a b); try lia
    | |- context [?a <? ?b] => destruct (Z.ltb_spec a b); try lia
    end;
  cbn [orb andb].

Section Windows.

Variables cs co : nat.
Hypothesis overlap_lt_size : (co < cs)%nat.
Hypothesis size_gt_1 : (1 < cs)%nat.

Local Abbreviation self := (splitter_of cs co).

Lemma join_docs_chars s :
  nospace s = true -> _join_docs (chars s) [] = if nonempty s then Some s else None.
Proof.
  intros H. unfold _join_docs. by rewrite join_chars, strip_nospace.
Qed.

(** Shrinking a run of single characters keeps its last [co]. *)
Lemma shrink_chars (cur : str) :
  (length cur <= cs)%nat ->
  shrink self 1 0 (len cur) (chars cur)
  = Ok (len (drop (length cur - co) cur), chars (drop (length cur - co) cur)).
Proof.
  induction cur as [|c cur IH]; intros Hle.
  - rewrite drop_nil. unfold len. simpl. by zbool.
  - cbn [shrink chars map]. fold (chars cur).
    cbn [_chunk_overlap _chunk_size splitter_of].
    rewrite !if_same_0.
    unfold len in *. cbn [length] in *.
    destruct (decide (co < S (length cur))%nat) as [Hlt|Hge].
    + destruct (Z.gtb_spec (Z.of_nat (S (length cur))) (Z.of_nat co)); [|lia].
      cbn [orb].
      match goal with
      | |- shrink _ _ _ ?t _ = _ => replace t with (Z.of_nat (length cur)) by lia
      end.
      rewrite IH by lia.
      replace (S (length cur) - co)%nat with (S (length cur - co)) by lia.
      done.
    + destruct (Z.gtb_spec (Z.of_nat (S (length cur))) (Z.of_nat co)); [lia|].
      destruct (Z.gtb_spec (Z.of_nat (S (length cur)) + 1 + 0) (Z.of_nat cs)); [lia|].
      cbn [orb andb].
      replace (S (length cur) - co)%nat with 0%nat by lia.
      done.
Qed.

Lemma windows_short fuel (t : str) :
  t <> [] -> (length t <= cs)%nat -> windows cs co (S fuel) t = [t].
Proof.
  intros Hne Hle. destruct t as [|c t]; [done|]. cbn [windows].
  by rewrite (proj2 (Nat.leb_le _ _) Hle).
Qed.

Lemma windows_long fuel (t : str) :
  (cs < length t)%nat ->
  windows cs co (S fuel) t = take cs t :: windows cs co fuel (drop (cs - co) t).
Proof.
  intros Hlt. destruct t as [|c t]; [simpl in Hlt; lia|]. cbn [windows].
  by rewrite (proj2 (Nat.leb_gt _ _) Hlt).
Qed.

(** Merging single characters yields the windows of the text. *)
Lemma merge_loop_chars (rest : str) :
  forall (docs : list str) (cur : str) (fuel : nat),
    nospace (cur ++ rest) = true ->
    (length cur <= cs)%nat ->
    (length (cur ++ rest) <= fuel)%nat ->
    merge_loop self [] (chars rest) docs (chars cur) (len cur)
    = Ok (docs ++ windows cs co fuel (cur ++ rest)).
Proof.
  induction rest as [|c rest IH]; intros docs cur fuel Hns Hle Hfuel.
  - rewrite app_nil_r in *. cbn [merge_loop chars map].
    rewrite join_docs_chars by done.
    destruct cur as [|c cur]; cbn [nonempty option_list].
    + by destruct fuel.
    + destruct fuel as [|fuel]; [simpl in Hfuel; lia|].
      by rewrite windows_short.
  - cbn [merge_loop chars map]. fold (chars rest).
    cbn [_chunk_size splitter_of].
    change (len [c]) with 1. change (len (@nil ascii)) with 0.
    rewrite !if_same_0, len_chars.
    destruct (decide (length cur = cs)) as [Heq|Hne].
    + assert (Hcur : nospace cur = true).
      { rewrite nospace_app in Hns. by apply andb_true_iff in Hns as [? _]. }
      unfold len at 1 2. rewrite Heq.
      destruct (Z.gtb_spec (Z.of_nat cs + 1 + 0) (Z.of_nat cs)); [|lia].
      destruct (Z.ltb_spec 0 (Z.of_nat cs)); [|lia].
      rewrite join_docs_chars by done.
      replace (Z.of_nat cs) with (len cur) at 1 by (unfold len; lia).
      rewrite shrink_chars by lia. cbn [rbind]. rewrite if_same_0, Heq.
      assert (Hne : nonempty cur = true)
        by (destruct cur; [simpl in Heq; lia | done]).
      rewrite Hne. cbn [option_list].
      set (cur' := drop (cs - co) cur).
      assert (Hlen' : length cur' = co).
      { subst cur'. rewrite length_drop. lia. }
      change [[c]] with (chars [c]). rewrite <- chars_app.
      replace (len cur' + (1 + 0)) with (len (cur' ++ [c]))
        by (unfold len; rewrite length_app; simpl; lia).
      destruct fuel as [|fuel]; [rewrite length_app in Hfuel; lia|].
      rewrite length_app in Hfuel. cbn [length] in Hfuel.
      rewrite (IH _ _ fuel).
      * rewrite windows_long by (rewrite length_app; simpl; lia).
        rewrite take_app_length' by done.
        rewrite drop_app_le by lia. fold cur'.
        by rewrite <- !app_assoc.
      * rewrite <- app_assoc. cbn [app].
        rewrite nospace_app in Hns |- *.
        apply andb_true_iff in Hns as [H1 H2]. rewrite H2, andb_true_r.
        subst cur'. rewrite <- (take_drop (cs - co) cur), nospace_app in H1.
        by apply andb_true_iff in H1 as [_ ?].
      * rewrite length_app. simpl. lia.
      * rewrite !length_app. simpl. lia.
    + unfold len at 1.
      destruct (Z.gtb_spec (Z.of_nat (length cur) + 1 + 0) (Z.of_nat cs)); [lia|].
      cbn [rbind]. rewrite if_same_0.
      change [[c]] with (chars [c]). rewrite <- chars_app.
      replace (len cur + (1 + 0)) with (len (cur ++ [c]))
        by (unfold len; rewrite length_app; simpl; lia).
      rewrite (IH _ _ fuel).
      * by rewrite <- app_assoc.
      * by rewrite <- app_assoc.
      * rewrite length_app. simpl. lia.
      * by rewrite <- app_assoc.
Qed.

Lemma merge_splits_chars (t : str) :
  nospace t = true ->
  _merge_splits self (chars t) [] = Ok (windows cs co (length t) t).
Proof.
  intros Hns. unfold _merge_splits.
  apply (merge_loop_chars t [] [] (length t)); [done | simpl; lia | done].
Qed.

Lemma split_loop_chars (rest : str) :
  forall good : str,
    split_loop self None (chars rest) (chars good) []
    = if nonempty (good ++ rest)
      then let* merged_text := _merge_splits self (chars (good ++ rest)) [] in
           Ok ([] ++ merged_text)
      else Ok [].
Proof.
  induction rest as [|c rest IH]; intros good.
  - rewrite app_nil_r. cbn [split_loop chars map]. by destruct good.
  - cbn [split_loop chars map]. fold (chars rest).
    cbn [_chunk_size splitter_of]. change (len [c]) with 1.
    destruct (Z.ltb_spec 1 (Z.of_nat cs)); [|lia].
    change [[c]] with (chars [c]). rewrite <- chars_app, IH, <- app_assoc.
    cbn [app]. by destruct good.
Qed.

Lemma filter_nonempty_chars (t : str) : List.filter nonempty (chars t) = chars t.
Proof. induction t as [|c t IH]; [done|]. simpl. by rewrite IH. Qed.

Lemma split_text_from_skip last (s : str) seps (t : str) :
  nonempty s = true -> re_search s t = false ->
  _split_text_from self last (s :: seps) t = _split_text_from self last seps t.
Proof. intros H1 H2. cbn [_split_text_from]. by rewrite H1, H2. Qed.

Lemma split_text_from_empty last seps (t : str) :
  _split_text_from self last ([] :: seps) t
  = split_loop self None (_split_text_with_regex t []) [] [].
Proof. done. Qed.

(** A text without white space is cut into windows of [cs] characters
    that start every [cs - co] characters. *)
Lemma split_text_nospace (t : str) :
  nospace t = true ->
  split_text self t = Ok (windows cs co (length t) t).
Proof.
  intros Hns. unfold split_text, _split_text. cbn [_separators splitter_of].
  change (List.last (map Some default_separators) None) with (Some (@nil ascii)).
  change default_separators
    with [newline ++ newline; newline; [" "%char]; @nil ascii].
  cbv beta iota.
  rewrite !split_text_from_skip, split_text_from_empty
    by (done || by apply re_search_nospace).
  unfold _split_text_with_regex. cbn [nonempty].
  rewrite filter_nonempty_chars.
  etrans; [exact (split_loop_chars t [])|]. cbn [app].
  destruct t as [|c t]; [done|]. cbn [nonempty].
  by rewrite merge_splits_chars.
Qed.

(** Two consecutive windows: the first is full, and its last [co]
    characters are the first [co] characters of the second. *)
Lemma windows_adjacent fuel :
  forall (t : str) (i : nat) (c1 c2 : str),
    windows cs co fuel t !! i = Some c1 ->
    windows cs co fuel t !! S i = Some c2 ->
    length c1 = cs /\ (co < length c2)%nat /\ drop (cs - co) c1 = take co c2.
Proof.
  induction fuel as [|fuel IH]; intros t i c1 c2 H1 H2; [done|].
  destruct (decide (cs < length t)%nat) as [Hlong|Hshort].
  - rewrite windows_long in H1, H2 by done.
    destruct i as [|i]; [|by apply (IH _ _ _ _ H1 H2)].
    injection H1 as <-. cbn in H2.
    set (t' := drop (cs - co) t) in *.
    assert (Hlen : (co < length t')%nat) by (subst t'; rewrite length_drop; lia).
    assert (Hc2 : (co < length c2)%nat /\ take co c2 = take co t').
    { destruct fuel as [|fuel']; [done|].
      destruct (decide (cs < length t')%nat) as [Hl|Hs].
      - rewrite windows_long in H2 by done. injection H2 as <-.
        rewrite length_take, take_take. split; [lia|]. f_equal. lia.
      - rewrite windows_short in H2 by (lia || by destruct t').
        by injection H2 as <-. }
    destruct Hc2 as [Hc2 ->]. rewrite length_take.
    split_and!; [apply Nat.min_l; lia | done |].
    subst t'. rewrite take_drop_commute. do 2 f_equal. lia.
  - destruct t as [|c t]; [done|]. cbn [windows] in H1, H2.
    rewrite (proj2 (Nat.leb_le _ _)) in H1, H2 by lia.
    by destruct i.
Qed.

End Windows.


(** The splitter of the script on a text without white space. *)
Lemma text_splitter_nospace (t : str) :
  nospace t = true ->
  split_text text_splitter t = Ok (windows 256 32 (length t) t).
Proof. intros H. by apply (split_text_nospace 256 32); [lia..|]. Qed.

Lemma split_documents_one self (page : Document) chunks :
  split_text self (page_content page) = Ok chunks ->
  split_documents self [page]
  = Ok (map (fun chunk => mkDocument chunk (metadata page)) chunks).
Proof. intros H. cbn. rewrite H. cbn. by rewrite app_nil_r. Qed.

(** On the page of words the chunks are cut at blanks and stripped:
    they start at offsets 0, 225 and 450. *)
Example split_words_page :
  split_text text_splitter words_page
  = Ok [take 254 words_page;
        take 254 (drop 225 words_page);
        take 149 (drop 450 words_page)].
Proof. vm_compute. reflexivity. Qed.

(** A page of 600 blanks yields no chunk at all. *)
Example split_blank_page :
  split_text text_splitter (replicate 600 " "%char) = Ok [].
Proof. vm_compute. reflexivity. Qed.

(** C3, as stated, fails: the page of words has 600 characters, and
    its chunks do not start at offsets 0, 224 and 448 (the second one
    starts at 225, after the blank at 224). *)
Lemma chunk_offsets_counterexample :
  length words_page = 600%nat
  /\ ~ exists docs,
         split_documents text_splitter [mkDocument words_page []] = Ok docs
         /\ chunks_start_at words_page [0; 224; 448]%nat
              (map page_content docs).
Proof.
  split; [done|]. intros (docs & Hsplit & Hstart).
  rewrite (split_documents_one text_splitter (mkDocument words_page []) _
             split_words_page) in Hsplit.
  injection Hsplit as <-. cbn [map page_content] in Hstart.
  apply Forall2_cons_1 in Hstart as [_ Hstart].
  apply Forall2_cons_1 in Hstart as [H224 _].
  vm_compute in H224. discriminate.
Qed.

(** C3, amended.  A page of 600 characters without white space is split
    into three chunks: the text from offsets 0, 224 and 448, of 256, 256
    and 152 characters. *)
Theorem chunk_offsets_nospace (page : Document) :
  length (page_content page) = 600%nat ->
  nospace (page_content page) = true ->
  split_documents text_splitter [page]
  = Ok [mkDocument (take 256 (page_content page)) (metadata page);
        mkDocument (take 256 (drop 224 (page_content page))) (metadata page);
        mkDocument (drop 448 (page_content page)) (metadata page)].
Proof.
  intros Hlen Hns.
  rewrite (split_documents_one text_splitter page _ (text_splitter_nospace _ Hns)).
  rewrite Hlen. set (t := page_content page) in *.
  rewrite (windows_long 256 32) by lia.
  assert (H1 : length (drop (256 - 32) t) = 376%nat)
    by (rewrite length_drop; lia).
  rewrite (windows_long 256 32) by lia. rewrite drop_drop.
  assert (H2 : length (drop (256 - 32 + (256 - 32)) t) = 152%nat)
    by (rewrite length_drop; lia).
  rewrite (windows_short 256 32) by (lia || (intros E; by rewrite E in H2)).
  done.
Qed.

Lemma chunk_offsets_nospace_witness :
  split_documents text_splitter [mkDocument solid_page []]
  = Ok [mkDocument (take 256 solid_page) [];
        mkDocument (take 256 (drop 224 solid_page)) [];
        mkDocument (drop 448 solid_page) []].
Proof.
  apply (chunk_offsets_nospace (mkDocument solid_page [])); reflexivity.
Defined.

(** C4, as stated, fails: the page of two long words is split at the
    blank into the two words, which share no character; the last 32
    characters of the first chunk are not the first 32 of the second,
    and no shorter end of the first is a start of the second either. *)
Lemma chunk_overlap_counterexample :
  exists c1 c2,
    split_text text_splitter two_words_page = Ok [c1; c2]
    /\ (32 <= length c1)%nat /\ (32 <= length c2)%nat
    /\ forall n, (0 < n <= 32)%nat -> ~ overlap n c1 c2.
Proof.
  exists (replicate 200 "a"%char), (replicate 200 "b"%char).
  split; [vm_compute; reflexivity|].
  rewrite !length_replicate. split_and!; [lia..|].
  intros n Hn. unfold overlap.
  rewrite length_replicate, drop_replicate, take_replicate.
  replace (200 - (200 - n))%nat with n by lia.
  replace (n `min` 200)%nat with n by lia.
  destruct n as [|n]; [lia|]. discriminate.
Qed.

(** C4, amended.  On a page without white space, of two consecutive
    chunks the first has [CHUNK_SIZE] characters, the second more than
    [CHUNK_OVERLAP], and the last 32 characters of the first are the
    first 32 characters of the second. *)
Theorem chunk_overlap_nospace (page : str) (chunks : list str)
    (i : nat) (c1 c2 : str) :
  nospace page = true ->
  split_text text_splitter page = Ok chunks ->
  chunks !! i = Some c1 ->
  chunks !! S i = Some c2 ->
  Z.of_nat (length c1) = CHUNK_SIZE
  /\ CHUNK_OVERLAP < Z.of_nat (length c2)
  /\ overlap 32 c1 c2.
Proof.
  intros Hns Hsplit H1 H2.
  rewrite (text_splitter_nospace _ Hns) in Hsplit. injection Hsplit as <-.
  edestruct (windows_adjacent 256 32) as (Hlen & Hlt & Hov);
    [..|exact H1|exact H2|]; [lia..|].
  unfold overlap, CHUNK_SIZE, CHUNK_OVERLAP. rewrite Hlen.
  split_and!; [lia | lia | done].
Qed.

Lemma chunk_overlap_nospace_witness :
  Z.of_nat (length (take 256 solid_page)) = CHUNK_SIZE
  /\ CHUNK_OVERLAP < Z.of_nat (length (take 256 (drop 224 solid_page)))
  /\ overlap 32 (take 256 solid_page) (take 256 (drop 224 solid_page)).
Proof.
  apply (chunk_overlap_nospace solid_page
           [take 256 solid_page; take 256 (drop 224 solid_page);
            drop 448 solid_page] 0);
    vm_compute; reflexivity.
Defined.

End SplitterFacts.

(** ** What the computations of the script leave untouched *)

Module RagFacts.
Import TextSplitter Rag Props.

Section Facts.
Variable sv : Services.
Local Abbreviation M := (M sv).

Lemma preserves_ret {A} (a : A) : preserves_session sv (ret a).
Proof. done. Qed.

Lemma preserves_raise {A} e : preserves_session sv (raise (A:=A) e).
Proof. done. Qed.

Lemma preserves_lift {A} (r : result A) : preserves_session sv (lift r).
Proof. done. Qed.

Lemma preserves_emit e : preserves_session sv (emit (sv:=sv) e).
Proof. done. Qed.

Lemma preserves_call {A} e (f : World sv -> result A * World sv) :
  preserves_session sv (call e f).
Proof. intros s. unfold call. by destruct (f (world s)). Qed.

Lemma preserves_session_get k : preserves_session sv (session_get (sv:=sv) k).
Proof. intros s. unfold session_get. by destruct (session_state s !! k). Qed.

Lemma preserves_bind {A B} (c : M A) (k : A -> M B) :
  preserves_session sv c -> (forall a, preserves_session sv (k a)) ->
  preserves_session sv (bind c k).
Proof.
  intros Hc Hk s. unfold bind. specialize (Hc s).
  destruct (c s) as [[a|e] s1]; simpl in *; [|done].
  by rewrite Hk.
Qed.

Lemma preserves_try {A} (c : M A) (h : Exception -> M A) :
  preserves_session sv c -> (forall e, preserves_session sv (h e)) ->
  preserves_session sv (try_except c h).
Proof.
  intros Hc Hh s. unfold try_except. specialize (Hc s).
  destruct (c s) as [[a|e] s1]; simpl in *; [done|].
  by rewrite Hh.
Qed.

Lemma preserves_if {A} (b : bool) (c1 c2 : M A) :
  preserves_session sv c1 -> preserves_session sv c2 ->
  preserves_session sv (if b then c1 else c2).
Proof. by destruct b. Qed.

End Facts.

(** Decomposes a computation into its steps. *)
Ltac frame :=
  repeat first
    [ apply preserves_bind; [|intros ?]
    | apply preserves_try; [|intros ?]
    | apply preserves_if
    | apply preserves_ret | apply preserves_raise | apply preserves_lift
    | apply preserves_emit | apply preserves_call
    | apply preserves_session_get
    | match goal with |- preserves_session _ (match ?x with _ => _ end) => destruct x end ].

Section Derived.
Variable sv : Services.

Lemma preserves_FAISS_from_documents chunks m :
  preserves_session sv (FAISS_from_documents sv chunks m).
Proof. unfold FAISS_from_documents. frame. Qed.

Lemma preserves_retriever_invoke r q :
  preserves_session sv (retriever_invoke sv r q).
Proof. unfold retriever_invoke, FAISS_similarity_search. frame. Qed.

Lemma preserves_chain_invoke c q : preserves_session sv (chain_invoke sv c q).
Proof. unfold chain_invoke. frame. Qed.

Lemma preserves_ingest_pdf_try : preserves_session sv (ingest_pdf_try sv).
Proof.
  unfold ingest_pdf_try, load_and_split_pdf, create_vectorstore. frame.
Qed.

Lemma preserves_ingest_pdf : preserves_session sv (ingest_pdf sv).
Proof.
  unfold ingest_pdf, pdf_path_exists. frame.
Qed.

Lemma preserves_display_sources docs : forall i,
  preserves_session sv (display_sources sv i docs).
Proof. induction docs as [|d docs IH]; intros i; cbn [display_sources]; frame. apply IH. Qed.

Lemma preserves_answer_question q : preserves_session sv (answer_question sv q).
Proof.
  unfold answer_question. frame. apply preserves_display_sources.
Qed.

Lemma preserves_main_interface inp : preserves_session sv (main_interface sv inp).
Proof. unfold main_interface. frame. apply preserves_display_sources. Qed.


Lemma pdf_path_exists_run s :
  pdf_path_exists sv s = (Ok (Path_exists sv PDF_PATH (world s)), after_check sv s).
Proof. done. Qed.

(** When the body of the [try] returns, it returns a success triple. *)
Lemma ingest_pdf_try_ok s x s' :
  ingest_pdf_try sv s = (Ok x, s') ->
  exists v, x = (true, success_message, Some v).
Proof.
  unfold ingest_pdf_try, bind. cbn [emit].
  destruct (load_and_split_pdf sv PDF_PATH _) as [[[chunks n]|e] s1]; [|done].
  destruct (create_vectorstore sv chunks EMBEDDING_MODEL _) as [[v|e] s2]; [|done].
  cbn. intros [= <- <-]. by exists v.
Qed.

(** The three ways [ingest_pdf] ends. *)
Lemma ingest_pdf_cases s :
  (Path_exists sv PDF_PATH (world s) = false /\
   ingest_pdf sv s = (Ok (false, not_found_message, None), after_check sv s))
  \/ (exists e s1,
        Path_exists sv PDF_PATH (world s) = true /\
        ingest_pdf_try sv (after_check sv s) = (Raise e, s1) /\
        ingest_pdf sv s = (Ok (false, lit "❌ Error: " ++ exc_str e, None), s1))
  \/ (exists v s1,
        Path_exists sv PDF_PATH (world s) = true /\
        ingest_pdf_try sv (after_check sv s) = (Ok (true, success_message, Some v), s1) /\
        ingest_pdf sv s = (Ok (true, success_message, Some v), s1)).
Proof.
  unfold ingest_pdf, bind. rewrite pdf_path_exists_run.
  destruct (Path_exists sv PDF_PATH (world s)) eqn:E; cbn [negb].
  - right. unfold try_except.
    destruct (ingest_pdf_try sv (after_check sv s)) as [[x|e] s1] eqn:Et.
    + right. destruct (ingest_pdf_try_ok _ _ _ Et) as [v ->]. by exists v, s1.
    + left. by exists e, s1.
  - by left.
Qed.

End Derived.
End RagFacts.

(** ** Ingest *)

Module IngestFacts.
Import TextSplitter Rag Props RagFacts.

Section Ingest.
Variable sv : Services.

Lemma events_since_app (s : State sv) w ss evs :
  events_since sv s (mkState w ss (trace s ++ evs)) = evs.
Proof. unfold events_since. cbn. by rewrite drop_app_length. Qed.

(** C1. When no file exists at [PDF_PATH], [ingest_pdf] returns the
    failure triple with the "not found" message and [None]; all it did
    was the existence check: the world and the session state are as
    before, and no loader, embedding or index-construction call was
    made. *)
Theorem ingest_missing_file (s : State sv) :
  Path_exists sv PDF_PATH (world s) = false ->
  exists s',
    ingest_pdf sv s = (Ok (false, not_found_message, None), s')
    /\ world s' = world s
    /\ session_state s' = session_state s
    /\ events_since sv s s' = [call_Path_exists PDF_PATH].
Proof.
  intros Hmissing.
  destruct (ingest_pdf_cases sv s) as [[_ H]|[(e & s1 & Hex & _)|(v & s1 & Hex & _)]];
    [|congruence..].
  exists (after_check sv s). split; [done|].
  split_and!; [done..|]. apply events_since_app.
Qed.

(** The button handler after a failed ingest: the message is shown as
    an error and nothing is stored. *)
Lemma process_pdf_failure m (s : State sv) msg idx s1 :
  ingest_pdf sv s = (Ok (false, msg, idx), s1) ->
  process_pdf sv m s
  = (Ok tt, mkState (world s1) (session_state s1) (trace s1 ++ [st_error msg])).
Proof. intros H. unfold process_pdf, bind. by rewrite H. Qed.

(** The button handler after a successful ingest: the index is stored,
    and the pipeline built from it and from the model name of the text
    field is stored with it. *)
Lemma process_pdf_success m (s : State sv) msg v s1 :
  ingest_pdf sv s = (Ok (true, msg, Some v), s1) ->
  process_pdf sv m s
  = (Ok tt,
     mkState (world s1)
       (<["qa_chain" := PyDict (initialize_qa_chain sv v m)]>
          (<["vectorstore" := PyFAISS v]> (session_state s1)))
       (trace s1 ++ [st_success msg])).
Proof.
  intros H. unfold process_pdf, bind. rewrite H. cbn.
  unfold session_get. cbn. by rewrite lookup_insert_eq.
Qed.

(** C2. Whatever exception the body of the [try] raises (loading,
    splitting, embedding or building the index), [ingest_pdf] returns
    the failure triple with the message of the exception and [None],
    and the button handler then leaves the session state as it was. *)
Theorem ingest_exception_caught (m : str) (s s1 : State sv) (e : Exception) :
  Path_exists sv PDF_PATH (world s) = true ->
  ingest_pdf_try sv (after_check sv s) = (Raise e, s1) ->
  ingest_pdf sv s = (Ok (false, lit "❌ Error: " ++ exc_str e, None), s1)
  /\ exists s2,
       process_pdf sv m s = (Ok tt, s2)
       /\ session_state s2 = session_state s
       /\ events_since sv s1 s2 = [st_error (lit "❌ Error: " ++ exc_str e)].
Proof.
  intros Hex Hraise.
  assert (Hing : ingest_pdf sv s
                 = (Ok (false, lit "❌ Error: " ++ exc_str e, None), s1)).
  { destruct (ingest_pdf_cases sv s)
      as [[? _]|[(e' & s1' & _ & Ht & H)|(v & s1' & _ & Ht & _)]]; congruence. }
  split; [done|].
  eexists. split; [by apply (process_pdf_failure m s _ _ _ Hing)|]. split.
  - cbn. rewrite <- (preserves_ingest_pdf sv s). by rewrite Hing.
  - apply events_since_app.
Qed.

(** The stages of the [try] body: an exception of the PDF parser, *)
Lemma try_raises_on_load (s : State sv) e w :
  PyPDFLoader_load sv PDF_PATH (world s) = (Raise e, w) ->
  exists s1, ingest_pdf_try sv s = (Raise e, s1).
Proof.
  intros H. unfold ingest_pdf_try, load_and_split_pdf, bind, call, emit.
  cbn [world]. rewrite H. by eexists.
Qed.

(** of the splitter, *)
Lemma try_raises_on_split (s : State sv) e w documents :
  PyPDFLoader_load sv PDF_PATH (world s) = (Ok documents, w) ->
  split_documents text_splitter documents = Raise e ->
  exists s1, ingest_pdf_try sv s = (Raise e, s1).
Proof.
  intros H1 H2. unfold ingest_pdf_try, load_and_split_pdf, bind, call, emit, lift.
  cbn [world]. rewrite H1, H2. by eexists.
Qed.

(** or of the embedding service is raised by the body as it is. *)
Lemma try_raises_on_embed (s : State sv) e w w' documents chunks :
  PyPDFLoader_load sv PDF_PATH (world s) = (Ok documents, w) ->
  split_documents text_splitter documents = Ok chunks ->
  embed_documents sv EMBEDDING_MODEL (map page_content chunks) w = (Raise e, w') ->
  exists s1, ingest_pdf_try sv s = (Raise e, s1).
Proof.
  intros H1 H2 H3.
  unfold ingest_pdf_try, load_and_split_pdf, create_vectorstore,
    FAISS_from_documents, bind, call, emit, lift, ret.
  cbn [world]. rewrite H1, H2. cbn [world]. rewrite H3. by eexists.
Qed.

(** C10. [ingest_pdf] always returns, and its flag is [True] exactly
    when its third component is not [None]. *)
Theorem ingest_flag_iff_index (s : State sv) :
  exists success message vectorstore s',
    ingest_pdf sv s = (Ok (success, message, vectorstore), s')
    /\ (success = true <-> vectorstore <> None).
Proof.
  destruct (ingest_pdf_cases sv s)
    as [[_ H]|[(e & s1 & _ & _ & H)|(v & s1 & _ & _ & H)]];
    rewrite H; do 4 eexists; (split; [done|]); split; done.
Qed.

End Ingest.

Import Demo.

Lemma ingest_missing_file_witness :
  exists s',
    ingest_pdf demo s_missing = (Ok (false, not_found_message, None), s')
    /\ world s' = world s_missing
    /\ session_state s' = session_state s_missing
    /\ events_since demo s_missing s' = [call_Path_exists PDF_PATH].
Proof. apply (ingest_missing_file demo s_missing). reflexivity. Defined.

Lemma ingest_exception_caught_witness :
  ingest_pdf demo s_down
  = (Ok (false, lit "❌ Error: " ++ exc_str ConnectionError, None),
     (ingest_pdf_try demo (after_check demo s_down)).2)
  /\ exists s2,
       process_pdf demo (lit "llama3.2") s_down = (Ok tt, s2)
       /\ session_state s2 = session_state s_down
       /\ events_since demo (ingest_pdf_try demo (after_check demo s_down)).2 s2
          = [st_error (lit "❌ Error: " ++ exc_str ConnectionError)].
Proof.
  apply (ingest_exception_caught demo (lit "llama3.2") s_down
           (ingest_pdf_try demo (after_check demo s_down)).2 ConnectionError).
  - reflexivity.
  - vm_compute. reflexivity.
Defined.

End IngestFacts.

(** ** A program logic for the session state and the trace *)

Module SessionFacts.
Import TextSplitter Rag Props RagFacts IngestFacts.

Section Session.
Variable sv : Services.
Local Abbreviation M := (M sv).

Lemma initialize_session_state_run s :
  initialize_session_state sv s
  = (Ok tt, mkState (world s) (initialized sv (session_state s)) (trace s)).
Proof.
  unfold initialize_session_state, initialized, bind, session_contains.
  cbn [negb].
  destruct (bool_decide (is_Some (session_state s !! "vectorstore"))); cbn;
    destruct (bool_decide (is_Some (_ !! "qa_chain"))); cbn; by destruct s.
Qed.

Lemma initialized_id ss :
  is_Some (ss !! "vectorstore") -> is_Some (ss !! "qa_chain") ->
  initialized sv ss = ss.
Proof.
  intros H1 H2. unfold initialized.
  rewrite (bool_decide_eq_true_2 _ H1). by rewrite (bool_decide_eq_true_2 _ H2).
Qed.

Lemma initialized_empty : uninitialized sv (initialized sv ∅).
Proof. done. Qed.

Section Rules.
Context {ss : gmap string (PyVal sv)} {P : Event -> Prop}.

Lemma triple_ret {A} (a : A) (Q : A -> Prop) : Q a -> triple sv ss P (ret a) Q.
Proof.
  intros HQ s Hs. split_and!; [done| |by intros ? [= <-]].
  exists []. by rewrite app_nil_r.
Qed.

Lemma triple_raise {A} e (Q : A -> Prop) : triple sv ss P (raise e) Q.
Proof.
  intros s Hs. split_and!; [done| |done].
  exists []. by rewrite app_nil_r.
Qed.

Lemma triple_lift {A} (r : result A) (Q : A -> Prop) :
  (forall a, r = Ok a -> Q a) -> triple sv ss P (lift r) Q.
Proof.
  intros HQ s Hs. split_and!; [done| |done].
  exists []. by rewrite app_nil_r.
Qed.

Lemma triple_emit e (Q : unit -> Prop) : P e -> Q tt -> triple sv ss P (emit e) Q.
Proof.
  intros HP HQ s Hs. split_and!; [done| |by intros []].
  exists [e]. split; [done|]. by constructor.
Qed.

Lemma triple_call {A} e (f : World sv -> result A * World sv) :
  P e -> triple sv ss P (call e f) (fun _ => True).
Proof.
  intros HP s Hs. unfold call. destruct (f (world s)) as [r w].
  split_and!; [done| |done].
  exists [e]. split; [done|]. by constructor.
Qed.

Lemma triple_session_get k :
  triple sv ss P (session_get k) (fun v => ss !! k = Some v).
Proof.
  intros s Hs. unfold session_get. rewrite Hs.
  destruct (ss !! k) as [v|]; (split_and!; [done| |]).
  - exists []. by rewrite app_nil_r.
  - by intros ? [= <-].
  - exists []. by rewrite app_nil_r.
  - done.
Qed.

Lemma triple_bind {A B} (c : M A) (k : A -> M B) Q1 (Q : B -> Prop) :
  triple sv ss P c Q1 -> (forall a, Q1 a -> triple sv ss P (k a) Q) ->
  triple sv ss P (bind c k) Q.
Proof.
  intros Hc Hk s Hs. unfold bind.
  destruct (Hc s Hs) as (Hss & (evs & Htr & Hevs) & HQ1).
  destruct (c s) as [[a|e] s1]; cbn in *.
  - destruct (Hk a (HQ1 a eq_refl) s1 Hss) as (Hss2 & (evs2 & Htr2 & Hevs2) & HQ).
    split_and!; [done| |done].
    exists (evs ++ evs2). rewrite Htr2, Htr, app_assoc. split; [done|].
    by apply Forall_app.
  - split_and!; [done| |done]. by exists evs.
Qed.

Lemma triple_try {A} (c : M A) (h : Exception -> M A) (Q : A -> Prop) :
  triple sv ss P c Q -> (forall e, triple sv ss P (h e) Q) ->
  triple sv ss P (try_except c h) Q.
Proof.
  intros Hc Hh s Hs. unfold try_except.
  destruct (Hc s Hs) as (Hss & (evs & Htr & Hevs) & HQ1).
  destruct (c s) as [[a|e] s1]; cbn in *.
  - split_and!; [done| |done]. by exists evs.
  - destruct (Hh e s1 Hss) as (Hss2 & (evs2 & Htr2 & Hevs2) & HQ).
    split_and!; [done| |done].
    exists (evs ++ evs2). rewrite Htr2, Htr, app_assoc. split; [done|].
    by apply Forall_app.
Qed.

Lemma triple_weaken {A} (c : M A) (Q Q' : A -> Prop) :
  triple sv ss P c Q -> (forall a, Q a -> Q' a) -> triple sv ss P c Q'.
Proof.
  intros Hc HQ s Hs. destruct (Hc s Hs) as (? & ? & ?). split_and!; eauto.
Qed.

End Rules.


Lemma triple_emit_True {ss P} e :
  P e -> triple sv ss P (emit e) (fun _ => True).
Proof. intros. by apply triple_emit. Qed.

Lemma triple_ret_True {ss P A} (a : A) :
  triple sv ss P (ret a) (fun _ => True).
Proof. by apply triple_ret. Qed.

Lemma triple_lift_True {ss P A} (r : result A) :
  triple sv ss P (lift r) (fun _ => True).
Proof. by apply triple_lift. Qed.

Lemma triple_raise_True {ss P A} e :
  triple sv ss P (raise (A:=A) e) (fun _ => True).
Proof. apply triple_raise. Qed.

End Session.

(** Steps through a computation with the rules above; the events of the
    page and the calls other than to a language model satisfy
    [no_other_model] by computation. *)
Ltac hoare :=
  repeat first
    [ eapply triple_bind; [|intros ? ?]
    | apply triple_emit_True; done
    | apply triple_call; done
    | apply triple_session_get
    | apply triple_ret_True
    | apply triple_raise_True
    | apply triple_lift_True
    | apply triple_try; [|intros ?] ].

Section Script.
Variable sv : Services.

Section Queries.

Variable ss : gmap string (PyVal sv).
Variable m0 : str.

Lemma triple_retriever_invoke r q :
  triple sv ss (no_other_model m0) (retriever_invoke sv r q) (fun _ => True).
Proof. unfold retriever_invoke, FAISS_similarity_search. hoare. Qed.

Lemma triple_chain_invoke c q :
  model (chain_llm c) = m0 ->
  triple sv ss (no_other_model m0) (chain_invoke sv c q) (fun _ => True).
Proof.
  intros Hm. unfold chain_invoke. eapply triple_bind.
  { apply triple_retriever_invoke. }
  intros docs _. eapply triple_bind; [apply triple_lift_True|].
  intros p _. by apply triple_call.
Qed.

Lemma triple_display_sources docs : forall i,
  triple sv ss (no_other_model m0) (display_sources sv i docs) (fun _ => True).
Proof.
  induction docs as [|d docs IH]; intros i; cbn [display_sources]; hoare.
  apply IH.
Qed.

Lemma triple_answer_question b q :
  ss !! "qa_chain" = Some (PyDict b) ->
  model (chain_llm (chain b)) = m0 ->
  triple sv ss (no_other_model m0) (answer_question sv q) (fun _ => True).
Proof.
  intros Hqa Hm. unfold answer_question.
  eapply triple_bind; [by apply triple_emit_True|]. intros _ _.
  apply triple_try.
  - eapply triple_bind; [apply triple_session_get|].
    intros qa Hget. rewrite Hqa in Hget. injection Hget as <-.
    eapply triple_bind; [by apply (triple_ret _ b (fun b' => b' = b))|].
    intros b' ->.
    eapply triple_bind; [by apply triple_chain_invoke|]. intros answer _.
    eapply triple_bind; [by apply triple_emit_True|]. intros _ _.
    eapply triple_bind; [by apply triple_emit_True|]. intros _ _.
    eapply triple_bind; [by apply triple_emit_True|]. intros _ _.
    eapply triple_bind; [apply triple_retriever_invoke|]. intros docs _.
    apply triple_display_sources.
  - intros e. hoare.
Qed.

Lemma triple_main_interface inp v b :
  ss !! "vectorstore" = Some (PyFAISS v) ->
  ss !! "qa_chain" = Some (PyDict b) ->
  model (chain_llm (chain b)) = m0 ->
  triple sv ss (no_other_model m0) (main_interface sv inp) (fun _ => True).
Proof.
  intros Hvs Hqa Hm. unfold main_interface.
  eapply triple_bind; [apply triple_session_get|].
  intros vs Hget. rewrite Hvs in Hget. injection Hget as <-. cbn [is_None].
  eapply triple_bind.
  { eapply triple_bind; [apply triple_session_get|].
    intros qa Hget. rewrite Hqa in Hget. injection Hget as <-. cbn [is_None].
    apply (triple_ret _ false (fun missing => missing = false)). done. }
  intros missing ->.
  eapply triple_bind; [by apply triple_emit_True|]. intros _ _.
  eapply triple_bind; [by apply triple_emit_True|]. intros _ _.
  eapply triple_bind; [by apply triple_emit_True|]. intros _ _.
  destruct (get_answer_clicked inp && nonempty (question inp)).
  - by apply (triple_answer_question b).
  - apply triple_ret_True.
Qed.

Lemma triple_sidebar inp :
  process_pdf_clicked inp = false ->
  triple sv ss (no_other_model m0) (sidebar sv inp) (fun _ => True).
Proof.
  intros Hclick. unfold sidebar, pdf_path_exists. rewrite Hclick. hoare.
Qed.

Lemma triple_script inp v b :
  ss !! "vectorstore" = Some (PyFAISS v) ->
  ss !! "qa_chain" = Some (PyDict b) ->
  model (chain_llm (chain b)) = m0 ->
  process_pdf_clicked inp = false ->
  triple sv ss (no_other_model m0) (script sv inp) (fun _ => True).
Proof.
  intros Hvs Hqa Hm Hclick. unfold script.
  eapply triple_bind; [by apply triple_emit_True|]. intros _ _.
  apply (triple_bind _ _ _ (fun _ => True)).
  { intros s Hs. rewrite initialize_session_state_run. cbn. rewrite Hs.
    rewrite initialized_id by (by rewrite ?Hvs, ?Hqa).
    split_and!; [done| |done]. exists []. by rewrite app_nil_r. }
  intros _ _.
  eapply triple_bind; [by apply triple_emit_True|]. intros _ _.
  eapply triple_bind; [by apply triple_sidebar|]. intros _ _.
  by apply (triple_main_interface inp v b).
Qed.

End Queries.

(** A run without a click on the button, from a session that holds an
    index and a pipeline: the session state stays, and the only
    language model called is the one of the pipeline. *)
Lemma run_without_process inp (s : State sv) v b :
  session_state s !! "vectorstore" = Some (PyFAISS v) ->
  session_state s !! "qa_chain" = Some (PyDict b) ->
  process_pdf_clicked inp = false ->
  session_state (run sv inp s) = session_state s
  /\ Forall (no_other_model (model (chain_llm (chain b))))
       (events_since sv s (run sv inp s)).
Proof.
  intros Hvs Hqa Hclick.
  destruct (triple_script (session_state s) _ inp v b Hvs Hqa eq_refl Hclick s eq_refl)
    as (Hss & (evs & Htr & Hevs) & _).
  unfold run, events_since.
  destruct (script sv inp s) as [[[]|e] s1]; cbn in *.
  - split; [done|]. by rewrite Htr, drop_app_length.
  - split; [done|]. rewrite Htr, <- app_assoc, drop_app_length.
    apply Forall_app. split; [done|]. by constructor.
Qed.

End Script.
End SessionFacts.

(** ** The session state across runs *)

Module PipelineFacts.
Import TextSplitter Rag Props RagFacts IngestFacts SessionFacts.

Section Pipeline.
Variable sv : Services.

Lemma bind_session_tail {A B} (c : M sv A) (k : A -> M sv B) s :
  (forall a, preserves_session sv (k a)) ->
  session_state (bind c k s).2 = session_state (c s).2.
Proof.
  intros Hk. unfold bind. destruct (c s) as [[a|e] s1]; [|done]. apply Hk.
Qed.

Lemma run_session inp (s : State sv) :
  session_state (run sv inp s) = session_state (script sv inp s).2.
Proof. unfold run. by destruct (script sv inp s) as [[[]|e] s1]. Qed.

(** What the button handler does to the session state. *)
Lemma process_pdf_session m (s : State sv) :
  session_state (process_pdf sv m s).2 = session_state s
  \/ exists v,
       session_state (process_pdf sv m s).2
       = <["qa_chain" := PyDict (initialize_qa_chain sv v m)]>
           (<["vectorstore" := PyFAISS v]> (session_state s)).
Proof.
  pose proof (preserves_ingest_pdf sv s) as Hpres.
  destruct (ingest_pdf_cases sv s)
    as [[_ H]|[(e & s1 & _ & _ & H)|(v & s1 & _ & _ & H)]];
    rewrite H in Hpres; cbn in Hpres.
  - left. by rewrite (process_pdf_failure sv m s _ _ _ H).
  - left. by rewrite (process_pdf_failure sv m s _ _ _ H).
  - right. exists v. rewrite (process_pdf_success sv m s _ _ _ H). cbn.
    by rewrite Hpres.
Qed.

(** The session state a run ends with is the one the button handler
    leaves, started from the initialized session state. *)
Lemma script_session inp (s : State sv) :
  exists sp,
    session_state sp = initialized sv (session_state s)
    /\ session_state (script sv inp s).2
       = session_state
           ((if process_pdf_clicked inp
             then process_pdf sv (model_name inp) else ret tt) sp).2.
Proof.
  unfold script.
  unfold bind at 1. cbn [emit world session_state trace].
  unfold bind at 1. rewrite initialize_session_state_run.
  unfold bind at 1. cbn [emit world session_state trace].
  rewrite bind_session_tail by (intros ?; apply preserves_main_interface).
  unfold sidebar.
  do 9 (unfold bind at 1; cbn [emit world session_state trace]).
  rewrite bind_session_tail
    by (intros ?; unfold pdf_path_exists; frame).
  by eexists (mkState _ _ _).
Qed.

(** What a run does to the session state: it initializes it, and a
    click on the button may store an index with its pipeline. *)
Lemma run_session_cases inp (s : State sv) :
  session_state (run sv inp s) = initialized sv (session_state s)
  \/ exists v,
       session_state (run sv inp s)
       = <["qa_chain" := PyDict (initialize_qa_chain sv v (model_name inp))]>
           (<["vectorstore" := PyFAISS v]> (initialized sv (session_state s))).
Proof.
  rewrite run_session.
  destruct (script_session inp s) as (sp & Hsp & ->).
  destruct (process_pdf_clicked inp); [|by left].
  destruct (process_pdf_session (model_name inp) sp) as [H|[v H]];
    rewrite H, Hsp; [by left|right; by exists v].
Qed.

Lemma initialized_uninitialized ss : uninitialized sv ss -> initialized sv ss = ss.
Proof. intros [H1 H2]. apply initialized_id; by rewrite ?H1, ?H2. Qed.

Lemma initialized_indexed ss v m : indexed sv ss v m -> initialized sv ss = ss.
Proof. intros [H1 H2]. apply initialized_id; by rewrite ?H1, ?H2. Qed.

Lemma indexed_insert ss v m :
  indexed sv
    (<["qa_chain" := PyDict (initialize_qa_chain sv v m)]>
       (<["vectorstore" := PyFAISS v]> ss)) v m.
Proof.
  split.
  - by rewrite lookup_insert_ne, lookup_insert_eq.
  - by rewrite lookup_insert_eq.
Qed.

(** The shape of every session state a session reaches. *)
Lemma reachable_shape ss :
  reachable sv ss ->
  ss = ∅ \/ uninitialized sv ss \/ exists v m, indexed sv ss v m.
Proof.
  induction 1 as [|inp s _ IH]; [by left|]. right.
  assert (Hinit : uninitialized sv (initialized sv (session_state s))
                  \/ exists v m, indexed sv (initialized sv (session_state s)) v m).
  { destruct IH as [->|[H|(v & m & H)]].
    - left. apply initialized_empty.
    - left. by rewrite initialized_uninitialized.
    - right. exists v, m. by rewrite (initialized_indexed _ v m). }
  destruct (run_session_cases inp s) as [->|[v ->]]; [done|].
  right. eexists _, _. apply indexed_insert.
Qed.

Lemma indexed_paired ss v m : indexed sv ss v m -> paired sv ss.
Proof.
  intros [H1 H2] b Hb. rewrite H2 in Hb. injection Hb as <-. by exists v, m.
Qed.

(** C7. In every reachable session state a stored pipeline was built
    from the index stored beside it; and when [ingest_pdf] succeeds, the
    button handler stores the new index and the pipeline built from it
    together. *)
Theorem pipeline_paired_with_index (ss : gmap string (PyVal sv)) :
  reachable sv ss ->
  paired sv ss
  /\ forall (s : State sv) m msg v s1,
       session_state s = ss ->
       ingest_pdf sv s = (Ok (true, msg, Some v), s1) ->
       indexed sv (session_state (process_pdf sv m s).2) v m.
Proof.
  intros Hreach. split.
  - destruct (reachable_shape ss Hreach) as [->|[[H1 H2]|(v & m & H)]].
    + intros b Hb. by rewrite lookup_empty in Hb.
    + intros b Hb. by rewrite H2 in Hb.
    + by apply (indexed_paired ss v m).
  - intros s m msg v s1 _ Hing.
    rewrite (process_pdf_success sv m s _ _ _ Hing). cbn.
    apply indexed_insert.
Qed.

(** C8. A run that only asks a question (the button not clicked), from
    a session that holds an index and its pipeline, leaves the session
    state as it was, whether the query succeeds or raises; the query
    handler itself never raises and never touches the session state. *)
Theorem query_leaves_session_state (inp : Inputs) (s : State sv) v m :
  indexed sv (session_state s) v m ->
  process_pdf_clicked inp = false ->
  session_state (run sv inp s) = session_state s
  /\ session_state (answer_question sv (question inp) s).2 = session_state s.
Proof.
  intros [Hvs Hqa] Hclick. split.
  - by apply (run_without_process sv inp s v _ Hvs Hqa Hclick).
  - apply preserves_answer_question.
Qed.

End Pipeline.

Import Demo.

Lemma pipeline_paired_with_index_witness :
  paired demo (session_state s_indexed)
  /\ forall (s : State demo) m msg v s1,
       session_state s = session_state s_indexed ->
       ingest_pdf demo s = (Ok (true, msg, Some v), s1) ->
       indexed demo (session_state (process_pdf demo m s).2) v m.
Proof.
  apply (pipeline_paired_with_index demo (session_state s_indexed)).
  apply (reachable_run demo (click_process (lit "llama3.2")) s_ready).
  apply reachable_init.
Defined.

Lemma query_leaves_session_state_witness :
  session_state (run demo (ask (lit "mistral") (lit "How many fans?")) s_indexed)
  = session_state s_indexed
  /\ session_state (answer_question demo (lit "How many fans?") s_indexed).2
     = session_state s_indexed.
Proof.
  apply (query_leaves_session_state demo
           (ask (lit "mistral") (lit "How many fans?")) s_indexed
           manual_index (lit "llama3.2")).
  - split; vm_compute; reflexivity.
  - reflexivity.
Defined.

(** A run in which the field holds "mistral" and the question is
    answered by "llama3.2". *)
Example stale_model_is_called :
  exists prompt,
    call_OllamaLLM_invoke (lit "llama3.2") 0 prompt
    ∈ events_since demo (process_pdf demo (lit "llama3.2") s_ready).2
        (run demo (ask (lit "mistral") (lit "How many fans?"))
           (process_pdf demo (lit "llama3.2") s_ready).2).
Proof.
  eexists.
  match goal with
  | |- _ ∈ ?l => let l' := eval vm_compute in l in change l with l'
  end.
  repeat first [apply list_elem_of_here | apply list_elem_of_further].
Qed.

End PipelineFacts.

(** ** Retrieval *)

Module RetrievalFacts.
Import TextSplitter Rag Props RagFacts.

Section Retrieval.
Variable sv : Services.

Lemma closer_trans (q : Vec sv) x y z : closer sv q x y -> closer sv q y z -> closer sv q x z.
Proof. unfold closer. apply Qle_trans. Qed.

Lemma insert_by_distance_perm (q : Vec sv) x l :
  Permutation (insert_by_distance q x l) (x :: l).
Proof.
  induction l as [|y l IH]; [done|]. cbn [insert_by_distance].
  destruct (Qle_bool _ _); [done|].
  rewrite IH. apply perm_swap.
Qed.

Lemma by_distance_perm (q : Vec sv) l : Permutation (by_distance q l) l.
Proof.
  induction l as [|x l IH]; [done|]. cbn.
  rewrite insert_by_distance_perm. by constructor.
Qed.

Lemma insert_by_distance_sorted (q : Vec sv) x l :
  StronglySorted (closer sv q) l ->
  StronglySorted (closer sv q) (insert_by_distance q x l).
Proof.
  induction 1 as [|y l Hs IH Hy]; cbn [insert_by_distance].
  - repeat constructor.
  - destruct (Qle_bool _ _) eqn:E.
    + apply Qle_bool_iff in E. constructor; [by constructor|].
      constructor; [done|].
      eapply Forall_impl; [exact Hy|]. intros z Hz. by eapply closer_trans.
    + assert (Hyx : closer sv q y x).
      { unfold closer. apply Qlt_le_weak, Qnot_le_lt. intros H.
        apply Qle_bool_iff in H. congruence. }
      constructor; [done|].
      rewrite (insert_by_distance_perm q x l). by constructor.
Qed.

Lemma by_distance_sorted (q : Vec sv) l : StronglySorted (closer sv q) (by_distance q l).
Proof.
  induction l as [|x l IH]; [constructor|]. cbn.
  by apply insert_by_distance_sorted.
Qed.

Lemma sorted_app_closer (q : Vec sv) (l1 l2 : list (Vec sv * Document)) :
  StronglySorted (closer sv q) (l1 ++ l2) ->
  forall x y, x ∈ l1 -> y ∈ l2 -> closer sv q x y.
Proof.
  induction l1 as [|a l1 IH]; intros Hs x y Hx Hy; [by apply elem_of_nil in Hx|].
  cbn in Hs. apply StronglySorted_inv in Hs as [Hs Ha].
  apply elem_of_cons in Hx as [->|Hx]; [|by apply IH].
  rewrite Forall_forall in Ha. apply Ha, elem_of_app. by right.
Qed.

(** What a successful retrieval returns. *)
Lemma retriever_invoke_ok r q (s s' : State sv) docs :
  retriever_invoke sv r q s = (Ok docs, s') ->
  exists qv,
    embed_query sv (embedding_function (vectorstore r)) q (world s)
    = (Ok qv, world s')
    /\ docs = map snd (index_search (vectorstore r) qv (search_kwargs_k r)).
Proof.
  unfold retriever_invoke, FAISS_similarity_search, bind, call.
  destruct (embed_query sv _ q (world s)) as [[qv|e] w]; [|done].
  cbn. intros [= <- <-]. by exists qv.
Qed.


(** C5. The retriever of a pipeline searches with [k = 3] (and the
    chain retrieves with the same retriever): a successful retrieval
    returns the documents of the three entries of the index nearest to
    the embedding of the question, all entries when there are fewer
    than three, so at most three documents. *)
Theorem retrieves_three_nearest (vs : FAISS sv) (m q : str)
    (s s' : State sv) (docs : list Document) :
  retriever_invoke sv (retriever (initialize_qa_chain sv vs m)) q s
  = (Ok docs, s') ->
  chain_retriever (chain (initialize_qa_chain sv vs m))
  = retriever (initialize_qa_chain sv vs m)
  /\ search_kwargs_k (retriever (initialize_qa_chain sv vs m)) = 3%nat
  /\ length docs = (3 `min` length (index vs))%nat
  /\ (length docs <= 3)%nat
  /\ exists qv near far,
       embed_query sv (embedding_function vs) q (world s) = (Ok qv, world s')
       /\ docs = map snd near
       /\ Permutation (index vs) (near ++ far)
       /\ forall x y, x ∈ near -> y ∈ far -> closer sv qv x y.
Proof.
  intros Hret. apply retriever_invoke_ok in Hret as (qv & Hq & ->).
  cbn [initialize_qa_chain retriever chain chain_retriever as_retriever
       vectorstore search_kwargs_k] in *.
  unfold index_search.
  assert (Hlen : length (by_distance qv (index vs)) = length (index vs))
    by apply Permutation_length, by_distance_perm.
  split_and!; [done|done|by rewrite length_map, length_take, Hlen
              |rewrite length_map, length_take; lia|].
  exists qv, (take 3 (by_distance qv (index vs))),
    (drop 3 (by_distance qv (index vs))).
  split_and!; [done|done| |].
  - rewrite take_drop. symmetry. apply by_distance_perm.
  - apply sorted_app_closer. rewrite take_drop. apply by_distance_sorted.
Qed.


End Retrieval.

Import Demo.

Lemma retrieves_three_nearest_witness :
  chain_retriever (chain (initialize_qa_chain demo shelf_index (lit "llama3.2")))
  = retriever (initialize_qa_chain demo shelf_index (lit "llama3.2"))
  /\ search_kwargs_k (retriever (initialize_qa_chain demo shelf_index (lit "llama3.2")))
     = 3%nat
  /\ length (map (fun t => mkDocument (lit t) []) ["abcd"; "abc"; "a"]%string)
     = (3 `min` length (index shelf_index))%nat
  /\ (length (map (fun t => mkDocument (lit t) []) ["abcd"; "abc"; "a"]%string)
      <= 3)%nat
  /\ exists qv near far,
       embed_query demo (embedding_function shelf_index) (lit "fans")
         (world s_ready)
       = (Ok qv,
          world (retriever_invoke demo
                   (retriever (initialize_qa_chain demo shelf_index
                                 (lit "llama3.2")))
                   (lit "fans") s_ready).2)
       /\ map (fun t => mkDocument (lit t) []) ["abcd"; "abc"; "a"]%string
          = map snd near
       /\ Permutation (index shelf_index) (near ++ far)
       /\ forall x y, x ∈ near -> y ∈ far -> closer demo qv x y.
Proof.
  apply (retrieves_three_nearest demo shelf_index (lit "llama3.2") (lit "fans")
           s_ready).
  vm_compute. reflexivity.
Defined.


End RetrievalFacts.

(** ** The splitter on any text *)

Module SplitterBounds.
Import TextSplitter Rag Props Shapes SplitterFacts.

Lemma substring_refl {A} (t : list A) : substring t t.
Proof. exists [], []. by rewrite app_nil_r. Qed.

Lemma substring_trans {A} (a b c : list A) :
  substring a b -> substring b c -> substring a c.
Proof.
  intros (p1 & q1 & ->) (p2 & q2 & ->).
  exists (p2 ++ p1), (q1 ++ q2). by rewrite <- !app_assoc.
Qed.

Lemma substring_app_l {A} (a b : list A) : substring a (a ++ b).
Proof. by exists [], b. Qed.

Lemma substring_app_r {A} (a b : list A) : substring b (a ++ b).
Proof. exists a, []. by rewrite app_nil_r. Qed.

Lemma substring_length {A} (a b : list A) :
  substring a b -> (length a <= length b)%nat.
Proof. intros (p & q & ->). rewrite !length_app. lia. Qed.

Lemma lstrip_suffix s : lstrip s `suffix_of` s.
Proof.
  induction s as [|c s IH]; [done|]. cbn [lstrip].
  destruct (isspace c); [|done]. by apply suffix_cons_r.
Qed.

Lemma lstrip_head s c : head (lstrip s) = Some c -> isspace c = false.
Proof.
  induction s as [|a s IH]; [done|]. cbn [lstrip].
  destruct (isspace a) eqn:E; [done|]. cbn. by intros [= <-].
Qed.

Lemma suffix_last {A} (l1 l2 : list A) x :
  l1 `suffix_of` l2 -> last l1 = Some x -> last l2 = Some x.
Proof.
  intros [k ->] H. destruct l1 as [|a l1]; [done|].
  by rewrite last_app, H.
Qed.

Lemma rstrip_prefix s : rstrip s `prefix_of` s.
Proof.
  unfold rstrip. destruct (lstrip_suffix (rev s)) as [k Hk].
  exists (rev k). apply (f_equal (@rev ascii)) in Hk.
  by rewrite rev_involutive, rev_app_distr in Hk.
Qed.

Lemma strip_substring s : substring (strip s) s.
Proof.
  unfold strip. destruct (rstrip_prefix (lstrip s)) as [k Hk].
  destruct (lstrip_suffix s) as [k' Hk'].
  exists k', k. by rewrite <- Hk.
Qed.

Lemma last_rev {A} (l : list A) : last (rev l) = head l.
Proof.
  destruct l as [|a l]; [done|]. cbn [rev]. by rewrite last_snoc.
Qed.

Lemma head_rev {A} (l : list A) : head (rev l) = last l.
Proof. by rewrite <- (rev_involutive l) at 2; rewrite last_rev. Qed.

Lemma strip_trimmed s : trimmed (strip s).
Proof.
  unfold strip, rstrip. split; intros c.
  - rewrite head_rev. intros H.
    apply (suffix_last _ _ _ (lstrip_suffix _)) in H.
    rewrite last_rev in H. by apply lstrip_head in H.
  - rewrite last_rev. apply lstrip_head.
Qed.

Lemma join_empty_sep (parts : list str) : join [] parts = concat parts.
Proof.
  induction parts as [|p [|q parts] IH]; [done|by cbn; rewrite app_nil_r|].
  change (join [] (p :: q :: parts)) with (p ++ join [] (q :: parts)).
  by rewrite IH.
Qed.

Lemma len_concat_app (l1 l2 : list str) :
  len (concat (l1 ++ l2)) = len (concat l1) + len (concat l2).
Proof. unfold len. rewrite concat_app, length_app. lia. Qed.

Lemma len_concat_cons (d : str) (l : list str) :
  len (concat (d :: l)) = len d + len (concat l).
Proof. unfold len. cbn [concat]. rewrite length_app. lia. Qed.

Lemma len_concat_snoc (d : str) (l : list str) :
  len (concat (l ++ [d])) = len (concat l) + len d.
Proof.
  rewrite len_concat_app, len_concat_cons.
  change (len (concat (@nil str))) with 0. lia.
Qed.

Lemma len_nonneg {A} (l : list A) : 0 <= len l.
Proof. unfold len. lia. Qed.

Lemma startswith_app (p s : str) :
  startswith p s = true -> exists rest, s = p ++ rest.
Proof.
  revert s. induction p as [|a p IH]; intros s H; [by exists s|].
  destruct s as [|b s]; [done|]. cbn in H.
  destruct (Ascii.eqb a b) eqn:E; [|done]. apply Ascii.eqb_eq in E as ->.
  destruct (IH s H) as [rest ->]. by exists rest.
Qed.

Lemma re_split_go_skip sep (s : str) :
  forall k acc, (k <= length s)%nat ->
    re_split_go sep k acc s = re_split_go sep 0 acc (drop k s).
Proof.
  induction s as [|c s IH]; intros k acc Hk.
  - by replace k with 0%nat by (cbn in Hk; lia).
  - destruct k as [|k]; [done|]. cbn [re_split_go drop].
    apply IH. cbn in Hk. lia.
Qed.

Lemma re_split_go_nonempty sep (s : str) :
  forall k acc, re_split_go sep k acc s <> [].
Proof.
  induction s as [|c s IH]; intros k acc; [done|]. cbn [re_split_go].
  destruct k; [|apply IH]. destruct (startswith _ _); [done|apply IH].
Qed.

(** Nothing is lost by [re.split]: the pieces, with the separator put
    back between them, are the text. *)
Lemma re_split_go_glue sep (n : nat) :
  sep <> [] ->
  forall (s acc : str), (length s <= n)%nat ->
    glue sep (re_split_go sep 0 acc s) = rev acc ++ s.
Proof.
  intros Hsep. induction n as [|n IH]; intros s acc Hn.
  - destruct s; [|cbn in Hn; lia]. cbn. by rewrite app_nil_r.
  - destruct s as [|c s]; [cbn; by rewrite app_nil_r|].
    cbn [re_split_go]. destruct (startswith sep (c :: s)) eqn:Hst.
    + destruct (startswith_app _ _ Hst) as [rest Hrest].
      destruct sep as [|a sep']; [done|]. injection Hrest as -> ->.
      replace (length (a :: sep') - 1)%nat with (length sep')
        by (cbn [length]; lia).
      rewrite re_split_go_skip by (rewrite length_app; lia).
      rewrite drop_app_length.
      specialize (IH rest [] ltac:(cbn in Hn; rewrite length_app in Hn; lia)).
      destruct (re_split_go (a :: sep') 0 [] rest) as [|q0 qs] eqn:E;
        [by apply re_split_go_nonempty in E|].
      cbn [glue map concat] in *.
      by rewrite <- (app_assoc (a :: sep') q0), IH.
    + rewrite IH by (cbn in Hn; lia). cbn [rev]. by rewrite <- app_assoc.
Qed.

Lemma concat_filter_nonempty (l : list str) :
  concat (List.filter nonempty l) = concat l.
Proof.
  induction l as [|p l IH]; [done|]. cbn [List.filter].
  destruct p as [|c p]; cbn [nonempty concat]; by rewrite IH.
Qed.

Lemma concat_chars (t : str) : concat (chars t) = t.
Proof.
  induction t as [|c t IH]; [done|].
  change (concat (chars (c :: t))) with (c :: concat (chars t)).
  by rewrite IH.
Qed.

(** The pieces a text is cut into make up the text. *)
Lemma split_text_with_regex_concat (text separator : str) :
  concat (_split_text_with_regex text separator) = text.
Proof.
  unfold _split_text_with_regex. rewrite concat_filter_nonempty.
  destruct separator as [|a sep]; cbn [nonempty]; [apply concat_chars|].
  unfold re_split.
  pose proof (re_split_go_glue (a :: sep) (length text) ltac:(done) text []
                ltac:(done)) as H.
  by destruct (re_split_go (a :: sep) 0 [] text).
Qed.

Section Bounds.

Variable self : RecursiveCharacterTextSplitter.
Hypothesis overlap_nonneg : 0 <= _chunk_overlap self.
Hypothesis size_gt_1 : 1 < _chunk_size self.

(** With pieces that carry their separator, the inner [while] never
    indexes an empty list: it leaves an end of [current_doc] that makes
    room for the next piece, or nothing. *)
Lemma shrink_spec (_len : Z) (cur : list str) :
  exists cur',
    shrink self _len 0 (len (concat cur)) cur = Ok (len (concat cur'), cur')
    /\ cur' `suffix_of` cur
    /\ (len (concat cur') + _len <= _chunk_size self \/ len (concat cur') = 0).
Proof.
  induction cur as [|d0 cur IH].
  - exists []. cbn [shrink]. change (len (concat (@nil str))) with 0.
    rewrite if_same_0.
    destruct (Z.gtb_spec 0 (_chunk_overlap self)); [lia|].
    destruct (Z.gtb_spec 0 0); [lia|]. rewrite andb_false_r. cbn.
    split_and!; [done|done|by right].
  - cbn [shrink]. rewrite !if_same_0.
    destruct (_ || _) eqn:Hcond.
    + replace (len (concat (d0 :: cur)) - (len d0 + 0)) with (len (concat cur))
        by (rewrite len_concat_cons; lia).
      destruct IH as (cur' & -> & Hsuf & Hpost).
      exists cur'. split_and!; [done| |done]. by apply suffix_cons_r.
    + exists (d0 :: cur). split_and!; [done|done|].
      apply orb_false_iff in Hcond as [_ Hcond].
      apply andb_false_iff in Hcond as [Hcond|Hcond].
      * left. destruct (Z.gtb_spec (len (concat (d0 :: cur)) + _len + 0)
                          (_chunk_size self)); [done|lia].
      * right. pose proof (len_nonneg (concat (d0 :: cur))).
        destruct (Z.gtb_spec (len (concat (d0 :: cur))) 0); [done|lia].
Qed.

Lemma join_docs_chunk (cur : list str) (text : str) doc :
  _join_docs cur [] = Some doc ->
  len (concat cur) <= _chunk_size self ->
  substring (concat cur) text ->
  chunk_of (_chunk_size self) text doc.
Proof.
  unfold _join_docs. rewrite join_empty_sep.
  destruct (nonempty _) eqn:E; [|done]. intros [= <-] Hle Hsub.
  pose proof (strip_substring (concat cur)) as Hs.
  split_and!.
  - by destruct (strip _).
  - apply substring_length in Hs. unfold len in *. lia.
  - apply strip_trimmed.
  - by eapply substring_trans.
Qed.

Lemma join_docs_chunks (cur : list str) (text : str) docs :
  Forall (chunk_of (_chunk_size self) text) docs ->
  len (concat cur) <= _chunk_size self ->
  substring (concat cur) text ->
  Forall (chunk_of (_chunk_size self) text)
    (docs ++ option_list (_join_docs cur [])).
Proof.
  intros Hdocs Hle Hsub. apply Forall_app. split; [done|].
  destruct (_join_docs cur []) as [doc|] eqn:E; cbn; [|done].
  constructor; [|done]. by eapply join_docs_chunk.
Qed.

Lemma suffix_concat_substring (cur' cur rest : list str) (text : str) :
  cur' `suffix_of` cur ->
  substring (concat (cur ++ rest)) text ->
  substring (concat (cur' ++ rest)) text.
Proof.
  intros [k ->] Hsub. eapply substring_trans; [|exact Hsub].
  rewrite <- app_assoc, (concat_app k). apply substring_app_r.
Qed.

(** Merging pieces shorter than the chunk size never raises, and yields
    only chunks of the text. *)
Lemma merge_loop_spec (text : str) (splits : list str) :
  forall (docs cur : list str),
    Forall (fun d => len d < _chunk_size self) splits ->
    len (concat cur) <= _chunk_size self ->
    Forall (chunk_of (_chunk_size self) text) docs ->
    substring (concat (cur ++ splits)) text ->
    exists docs',
      merge_loop self [] splits docs cur (len (concat cur)) = Ok docs'
      /\ Forall (chunk_of (_chunk_size self) text) docs'.
Proof.
  induction splits as [|d splits IH]; intros docs cur Hsplits Hle Hdocs Hsub.
  - rewrite app_nil_r in Hsub. cbn [merge_loop]. eexists. split; [done|].
    by apply join_docs_chunks.
  - apply Forall_cons in Hsplits as [Hd Hsplits].
    cbn [merge_loop]. change (len (@nil ascii)) with 0. rewrite !if_same_0.
    assert (Hsub' : forall c, substring (concat ((c ++ [d]) ++ splits)) text
                              <-> substring (concat (c ++ d :: splits)) text).
    { intros c. by rewrite <- app_assoc. }
    assert (Hcur : substring (concat cur) text).
    { eapply substring_trans; [|exact Hsub]. rewrite concat_app.
      apply substring_app_l. }
    destruct (Z.gtb_spec (len (concat cur) + len d + 0) (_chunk_size self))
      as [Hbig|Hfit].
    + destruct (Z.ltb_spec 0 (len cur)) as [Hne|Hempty].
      * destruct (shrink_spec (len d) cur) as (cur' & -> & Hsuf & Hpost).
        cbn [rbind]. rewrite ?if_same_0.
        replace (len (concat cur') + (len d + 0))
          with (len (concat (cur' ++ [d])))
          by (rewrite len_concat_snoc; lia).
        apply IH; [done| | |].
        -- rewrite len_concat_snoc. lia.
        -- by apply join_docs_chunks.
        -- apply Hsub'. by eapply suffix_concat_substring.
      * cbn [rbind]. rewrite ?if_same_0.
        replace (len (concat cur) + (len d + 0))
          with (len (concat (cur ++ [d])))
          by (rewrite len_concat_snoc; lia).
        assert (cur = []) as ->
          by (destruct cur; [done|unfold len in Hempty; cbn [length] in Hempty; lia]).
        apply IH; [done| |done|by apply Hsub'].
        rewrite len_concat_snoc. change (len (concat (@nil str))) with 0. lia.
    + cbn [rbind]. rewrite ?if_same_0.
      replace (len (concat cur) + (len d + 0))
        with (len (concat (cur ++ [d])))
        by (rewrite len_concat_snoc; lia).
      apply IH; [done| |done|by apply Hsub'].
      rewrite len_concat_snoc. lia.
Qed.

(** The loop over the pieces never raises and yields only chunks of
    the text, provided the pieces that cannot be split further are
    shorter than the chunk size. *)
Lemma split_loop_spec (text : str) recurse (splits : list str) :
  match recurse with
  | None => Forall (fun s => len s < _chunk_size self) splits
  | Some f =>
      forall s, substring s text ->
        exists r, f s = Ok r /\ Forall (chunk_of (_chunk_size self) text) r
  end ->
  forall (good final : list str),
    Forall (fun d => len d < _chunk_size self) good ->
    Forall (chunk_of (_chunk_size self) text) final ->
    substring (concat (good ++ splits)) text ->
    exists r,
      split_loop self recurse splits good final = Ok r
      /\ Forall (chunk_of (_chunk_size self) text) r.
Proof.
  intros Hrec.
  assert (Hmerge : forall good final,
    Forall (fun d => len d < _chunk_size self) good ->
    Forall (chunk_of (_chunk_size self) text) final ->
    substring (concat good) text ->
    exists r,
      (if nonempty good
       then let* merged_text := _merge_splits self good [] in
            Ok (final ++ merged_text)
       else Ok final) = Ok r
      /\ Forall (chunk_of (_chunk_size self) text) r).
  { intros good final Hgood Hfinal Hsub.
    destruct (nonempty good); [|by exists final].
    destruct (merge_loop_spec text good [] []) as (m & Hm & Hchunks);
      [done| change (len (concat (@nil str))) with 0; lia |done|done|].
    unfold _merge_splits. change 0 with (len (concat (@nil str))) at 1.
    rewrite Hm. cbn [rbind]. eexists. split; [done|]. by apply Forall_app. }
  induction splits as [|s splits IH]; intros good final Hgood Hfinal Hsub.
  - rewrite app_nil_r in Hsub. cbn [split_loop]. by apply Hmerge.
  - cbn [split_loop].
    assert (Hs : substring s text).
    { eapply substring_trans; [|exact Hsub].
      rewrite concat_app. cbn [concat].
      eapply substring_trans; [apply substring_app_l|apply substring_app_r]. }
    assert (Hrest : substring (concat splits) text).
    { eapply substring_trans; [|exact Hsub].
      rewrite concat_app. cbn [concat].
      eapply substring_trans; [apply substring_app_r|apply substring_app_r]. }
    assert (Hrec' : match recurse with
      | None => Forall (fun s => len s < _chunk_size self) splits
      | Some f =>
          forall s, substring s text ->
            exists r, f s = Ok r /\ Forall (chunk_of (_chunk_size self) text) r
      end).
    { destruct recurse; [done|]. by apply Forall_cons in Hrec as [_ ?]. }
    destruct (Z.ltb_spec (len s) (_chunk_size self)) as [Hlt|Hge].
    + apply (IH Hrec'); [|done|by rewrite <- app_assoc].
      apply Forall_app. split; [done|]. by constructor.
    + destruct (Hmerge good final Hgood Hfinal) as (r1 & Hm1 & Hr1).
      { eapply substring_trans; [|exact Hsub]. rewrite concat_app.
        apply substring_app_l. }
      match goal with
      | |- exists r, rbind ?x _ = _ /\ _ =>
          let H := fresh in assert (H : x = Ok r1) by exact Hm1; rewrite H
      end.
      cbn [rbind]. destruct recurse as [f|].
      * destruct (Hrec s Hs) as (r2 & -> & Hr2). cbn [rbind].
        apply (IH Hrec'); [done| |done]. by apply Forall_app.
      * apply Forall_cons in Hrec as [Hlt _]. lia.
Qed.

(** With separators that end with the empty string, splitting never
    raises and yields only chunks of the text. *)
Lemma split_text_from_spec (separators : list str) :
  ends_with_empty separators ->
  forall text,
    exists r,
      _split_text_from self [] separators text = Ok r
      /\ Forall (chunk_of (_chunk_size self) text) r.
Proof.
  assert (Hchars : forall text,
    exists r,
      split_loop self None (_split_text_with_regex text []) [] [] = Ok r
      /\ Forall (chunk_of (_chunk_size self) text) r).
  { intros text. apply split_loop_spec; [|done|done|].
    - unfold _split_text_with_regex. cbn [nonempty].
      rewrite filter_nonempty_chars. apply Forall_forall.
      intros s [c [-> _]]%list_elem_of_fmap. change (len [c]) with 1. lia.
    - cbn [app]. rewrite split_text_with_regex_concat. apply substring_refl. }
  induction separators as [|_s rest IH]; intros Hends text.
  - apply Hchars.
  - cbn [_split_text_from]. destruct (nonempty _s) eqn:Hne; cbn [negb].
    2:{ destruct _s; [apply Hchars|done]. }
    assert (Hrest : rest <> [] /\ ends_with_empty rest).
    { destruct Hends as [|[pre Hpre]]; [done|].
      destruct pre as [|p pre]; cbn in Hpre.
      - injection Hpre as -> _. done.
      - injection Hpre as _ ->. split; [by destruct pre|]. right. by exists pre. }
    destruct Hrest as [Hnil Hends'].
    destruct (re_search _s text); [|by apply IH].
    apply split_loop_spec; [|done|done|].
    + destruct rest as [|r0 rest']; [done|].
      intros s Hs. destruct (IH Hends' s) as (r & Hr & Hchunks).
      exists r. split; [done|].
      eapply Forall_impl; [exact Hchunks|].
      intros c (? & ? & ? & ?). split_and!; [done..|].
      by eapply substring_trans.
    + cbn [app]. rewrite split_text_with_regex_concat. apply substring_refl.
Qed.

(** Pieces that fit into one chunk together are merged into one. *)
Lemma merge_loop_fits (splits : list str) :
  forall (docs cur : list str),
    len (concat (cur ++ splits)) <= _chunk_size self ->
    merge_loop self [] splits docs cur (len (concat cur))
    = Ok (docs ++ option_list (_join_docs (cur ++ splits) [])).
Proof.
  induction splits as [|d splits IH]; intros docs cur Hfit.
  - by rewrite app_nil_r.
  - cbn [merge_loop]. change (len (@nil ascii)) with 0. rewrite !if_same_0.
    pose proof (len_nonneg (concat splits)).
    rewrite len_concat_app, len_concat_cons in Hfit.
    destruct (Z.gtb_spec (len (concat cur) + len d + 0) (_chunk_size self));
      [lia|].
    cbn [rbind]. rewrite if_same_0.
    replace (len (concat cur) + (len d + 0)) with (len (concat (cur ++ [d])))
      by (rewrite len_concat_snoc; lia).
    rewrite IH, <- app_assoc; [done|].
    rewrite <- app_assoc. cbn [app]. rewrite len_concat_app, len_concat_cons.
    lia.
Qed.

Lemma split_loop_good recurse (splits : list str) :
  forall good : list str,
    Forall (fun d => len d < _chunk_size self) splits ->
    split_loop self recurse splits good []
    = if nonempty (good ++ splits)
      then let* merged_text := _merge_splits self (good ++ splits) [] in
           Ok ([] ++ merged_text)
      else Ok [].
Proof.
  induction splits as [|d splits IH]; intros good Hgood.
  - rewrite app_nil_r. cbn [split_loop]. by destruct good.
  - apply Forall_cons in Hgood as [Hd Hgood]. cbn [split_loop].
    destruct (Z.ltb_spec (len d) (_chunk_size self)); [|lia].
    rewrite IH, <- app_assoc by done. cbn [app]. by destruct good.
Qed.

Lemma elem_of_concat_substring (pieces : list str) (p : str) :
  p ∈ pieces -> substring p (concat pieces).
Proof.
  intros (l1 & l2 & ->)%list_elem_of_split.
  rewrite concat_app. cbn [concat].
  eapply substring_trans; [apply substring_app_l|apply substring_app_r].
Qed.

(** A text shorter than the chunk size is not split at all, whatever
    the separators. *)
Lemma split_text_from_short (text : str) :
  len text < _chunk_size self ->
  forall last separators,
    _split_text_from self last separators text
    = Ok (if nonempty (strip text) then [strip text] else []).
Proof.
  intros Hshort last.
  assert (Hpieces : forall recurse separator,
    split_loop self recurse (_split_text_with_regex text separator) [] []
    = Ok (if nonempty (strip text) then [strip text] else [])).
  { intros recurse separator.
    pose proof (split_text_with_regex_concat text separator) as Hconcat.
    set (pieces := _split_text_with_regex text separator) in *.
    rewrite split_loop_good.
    - cbn [app]. destruct (nonempty pieces) eqn:Hne.
      + unfold _merge_splits. change 0 with (len (concat (@nil str))).
        rewrite merge_loop_fits by (cbn [app]; rewrite Hconcat; lia).
        cbn [app rbind]. unfold _join_docs.
        rewrite join_empty_sep, Hconcat. by destruct (nonempty (strip text)).
      + destruct pieces; [|done]. by rewrite <- Hconcat.
    - apply Forall_forall. intros p Hp.
      apply elem_of_concat_substring, substring_length in Hp.
      rewrite Hconcat in Hp. unfold len in *. lia. }
  induction separators as [|_s rest IH]; cbn [_split_text_from];
    [apply Hpieces|].
  destruct (negb (nonempty _s)); [apply Hpieces|].
  destruct (re_search _s text); [apply Hpieces|apply IH].
Qed.

End Bounds.

(** The splitter of the script on any text. *)
Lemma text_splitter_spec (text : str) :
  exists chunks,
    split_text text_splitter text = Ok chunks
    /\ Forall (chunk_of CHUNK_SIZE text) chunks.
Proof.
  unfold split_text, _split_text. cbn [_separators text_splitter].
  change (List.last (map Some default_separators) None) with (Some (@nil ascii)).
  cbv beta iota.
  apply (split_text_from_spec text_splitter); [done|done|].
  right. by exists [newline ++ newline; newline; lit " "].
Qed.

(** A page of white space only (an empty page too) has no chunk. *)
Lemma text_splitter_blank (text : str) :
  forallb isspace text = true -> split_text text_splitter text = Ok [].
Proof.
  intros Hblank. destruct (text_splitter_spec text) as (chunks & -> & Hchunks).
  destruct chunks as [|c chunks]; [done|]. exfalso.
  apply Forall_cons in Hchunks as [(Hne & _ & [Hhead _] & (pre & post & ->)) _].
  destruct c as [|a c]; [done|]. specialize (Hhead a eq_refl).
  rewrite !forallb_app in Hblank. cbn in Hblank.
  apply andb_true_iff in Hblank as [_ Hblank].
  apply andb_true_iff in Hblank as [Hblank _].
  apply andb_true_iff in Hblank as [Hblank _]. congruence.
Qed.

(** The chunks of a list of pages. *)
Lemma split_documents_spec (documents : list Document) :
  exists chunks,
    split_documents text_splitter documents = Ok chunks
    /\ Forall (fun chunk =>
                 exists page,
                   page ∈ documents
                   /\ metadata chunk = metadata page
                   /\ chunk_of CHUNK_SIZE (page_content page)
                        (page_content chunk))
         chunks.
Proof.
  induction documents as [|doc documents (others & IH & Hothers)].
  - by exists [].
  - cbn [split_documents].
    destruct (text_splitter_spec (page_content doc)) as (cs & -> & Hcs).
    rewrite IH. cbn [rbind]. eexists. split; [done|].
    apply Forall_app. split.
    + apply Forall_forall. intros chunk [c [-> Hc]]%list_elem_of_fmap.
      exists doc. split_and!; [apply list_elem_of_here|done|].
      rewrite Forall_forall in Hcs. by apply Hcs.
    + eapply Forall_impl; [exact Hothers|].
      intros chunk (page & ? & ? & ?). exists page.
      split_and!; [by apply list_elem_of_further|done..].
Qed.

Lemma split_documents_blank (documents : list Document) :
  Forall (fun page => forallb isspace (page_content page) = true) documents ->
  split_documents text_splitter documents = Ok [].
Proof.
  induction 1 as [|doc documents Hdoc _ IH]; [done|].
  cbn [split_documents]. by rewrite (text_splitter_blank _ Hdoc), IH.
Qed.

(** X1. Whatever the text of a page, the splitter of the script returns
    normally, and every chunk is a non-empty run of consecutive
    characters of the page, of at most [CHUNK_SIZE] characters, that
    neither starts nor ends with white space. *)
Theorem split_text_chunks (text : str) :
  exists chunks,
    split_text text_splitter text = Ok chunks
    /\ Forall (chunk_of CHUNK_SIZE text) chunks.
Proof. apply text_splitter_spec. Qed.

(** X2. A page that holds white space only, or nothing, yields no
    chunk. *)
Theorem split_text_blank_page (text : str) :
  forallb isspace text = true -> split_text text_splitter text = Ok [].
Proof. apply text_splitter_blank. Qed.

Lemma split_text_blank_page_witness :
  split_text text_splitter (lit "   " ++ newline ++ lit "  ") = Ok [].
Proof.
  apply (split_text_blank_page (lit "   " ++ newline ++ lit "  ")).
  reflexivity.
Defined.

(** X3. Splitting the pages of a document never raises; every chunk
    comes from one page, whose metadata it carries, and is a chunk of
    the text of that page: no chunk runs across two pages. *)
Theorem split_documents_chunks (documents : list Document) :
  exists chunks,
    split_documents text_splitter documents = Ok chunks
    /\ Forall (fun chunk =>
                 exists page,
                   page ∈ documents
                   /\ metadata chunk = metadata page
                   /\ chunk_of CHUNK_SIZE (page_content page)
                        (page_content chunk))
         chunks.
Proof. apply split_documents_spec. Qed.

(** X4. A page shorter than [CHUNK_SIZE] is not split: its one chunk
    is the text of the page without the white space around it (and
    there is no chunk when nothing is left). *)
Theorem split_text_short_page (text : str) :
  len text < CHUNK_SIZE ->
  split_text text_splitter text
  = Ok (if nonempty (strip text) then [strip text] else []).
Proof.
  intros Hshort. unfold split_text, _split_text.
  cbn [_separators text_splitter].
  change (List.last (map Some default_separators) None) with (Some (@nil ascii)).
  cbv beta iota. by apply (split_text_from_short text_splitter).
Qed.

Lemma split_text_short_page_witness :
  split_text text_splitter (lit "  Two fans, one power button. ")
  = Ok (if nonempty (strip (lit "  Two fans, one power button. "))
        then [strip (lit "  Two fans, one power button. ")] else []).
Proof.
  apply (split_text_short_page (lit "  Two fans, one power button. ")).
  reflexivity.
Defined.

End SplitterBounds.

(** ** More about ingest *)

Module IngestMore.
Import TextSplitter Rag Props Shapes RagFacts IngestFacts SplitterBounds.

Section Ingest.
Variable sv : Services.

(** X5. [load_and_split_pdf] raises exactly when the PDF parser does,
    and then the parser's exception; otherwise it returns the chunks of
    the pages together with the number of pages (not of chunks).  The
    call of the parser is all it does to the outside. *)
Theorem load_and_split_pdf_outcome (pdf_path : str) (s : State sv) :
  match PyPDFLoader_load sv pdf_path (world s) with
  | (Raise e, w) =>
      load_and_split_pdf sv pdf_path s
      = (Raise e,
         mkState w (session_state s)
           (trace s ++ [call_PyPDFLoader_load pdf_path]))
  | (Ok documents, w) =>
      exists chunks,
        split_documents text_splitter documents = Ok chunks
        /\ load_and_split_pdf sv pdf_path s
           = (Ok (chunks, len documents),
              mkState w (session_state s)
                (trace s ++ [call_PyPDFLoader_load pdf_path]))
  end.
Proof.
  unfold load_and_split_pdf, bind, call, lift, ret.
  destruct (PyPDFLoader_load sv pdf_path (world s)) as [[documents|e] w];
    [|done].
  destruct (split_documents_spec documents) as (chunks & Hsplit & _).
  exists chunks. by rewrite Hsplit.
Qed.

(** [ingest_pdf] when every step goes through. *)
Lemma ingest_pdf_run (s : State sv) documents w1 chunks vectors w2 :
  Path_exists sv PDF_PATH (world s) = true ->
  PyPDFLoader_load sv PDF_PATH (world s) = (Ok documents, w1) ->
  split_documents text_splitter documents = Ok chunks ->
  embed_documents sv EMBEDDING_MODEL (map page_content chunks) w1
  = (Ok vectors, w2) ->
  vectors <> [] ->
  length vectors = length chunks ->
  ingest_pdf sv s
  = (Ok (true, success_message,
         Some (mkFAISS EMBEDDING_MODEL (zip vectors chunks))),
     mkState w2 (session_state s)
       (trace s ++ ingest_events documents chunks)).
Proof.
  intros Hex Hload Hsplit Hembed Hne Hlen.
  unfold ingest_pdf. unfold bind at 1. rewrite pdf_path_exists_run, Hex.
  cbn [negb]. unfold try_except, ingest_pdf_try, load_and_split_pdf,
    create_vectorstore, FAISS_from_documents, bind, call, emit, lift, ret,
    raise, after_check.
  cbn [world session_state trace]. rewrite Hload, Hsplit.
  cbn [world session_state trace]. rewrite Hembed.
  destruct vectors as [|v vectors]; [done|].
  rewrite Hlen, Nat.eqb_refl. cbn [negb world session_state trace].
  unfold ingest_events. by rewrite <- !app_assoc.
Qed.

(** X6. When the file is there, the parser returns pages and the
    embedding service returns one vector for each chunk (at least one),
    [ingest_pdf] succeeds: the index holds the chunks in order, each
    with its vector, is tied to [EMBEDDING_MODEL], and the message
    shown reports the number of pages and of chunks. *)
Theorem ingest_success (s : State sv) documents w1 chunks vectors w2 :
  Path_exists sv PDF_PATH (world s) = true ->
  PyPDFLoader_load sv PDF_PATH (world s) = (Ok documents, w1) ->
  split_documents text_splitter documents = Ok chunks ->
  embed_documents sv EMBEDDING_MODEL (map page_content chunks) w1
  = (Ok vectors, w2) ->
  vectors <> [] ->
  length vectors = length chunks ->
  ingest_pdf sv s
  = (Ok (true, success_message,
         Some (mkFAISS EMBEDDING_MODEL (zip vectors chunks))),
     mkState w2 (session_state s)
       (trace s ++ ingest_events documents chunks))
  /\ map snd (index (mkFAISS (sv:=sv) EMBEDDING_MODEL (zip vectors chunks)))
     = chunks.
Proof.
  intros Hex Hload Hsplit Hembed Hne Hlen. split.
  - by apply (ingest_pdf_run s documents w1).
  - cbn [index]. apply snd_zip. lia.
Qed.

(** X7. A PDF whose pages hold white space only (a scan without a text
    layer, or no page at all) cannot be ingested: there is no chunk to
    build the index from, and whatever the embedding service answers,
    [ingest_pdf] returns a failure with an error message and no
    index. *)
Theorem ingest_blank_pdf_fails (s : State sv) documents w1 :
  Path_exists sv PDF_PATH (world s) = true ->
  PyPDFLoader_load sv PDF_PATH (world s) = (Ok documents, w1) ->
  Forall (fun page => blank (page_content page) = true) documents ->
  exists e s',
    ingest_pdf sv s = (Ok (false, lit "❌ Error: " ++ exc_str e, None), s').
Proof.
  intros Hex Hload Hblank.
  destruct (ingest_pdf_cases sv s)
    as [[? _]|[(e & s1 & _ & _ & H)|(v & s1 & _ & Htry & _)]];
    [congruence|by exists e, s1|exfalso].
  revert Htry.
  unfold ingest_pdf_try, load_and_split_pdf, create_vectorstore,
    FAISS_from_documents, bind, call, emit, lift, ret, raise, after_check.
  cbn [world session_state trace].
  rewrite Hload, (split_documents_blank documents Hblank).
  cbn [world session_state trace map].
  destruct (embed_documents sv EMBEDDING_MODEL [] w1) as [[[|v0 vectors]|e] w2];
    done.
Qed.

End Ingest.

Import Demo Metered.

Lemma ingest_success_witness :
  ingest_pdf demo s_ready
  = (Ok (true, success_message,
         Some (mkFAISS (sv:=demo) EMBEDDING_MODEL
                 (zip (map len (map page_content manual)) manual))),
     mkState (sv:=demo) (world s_ready) (session_state s_ready)
       (trace s_ready ++ ingest_events manual manual))
  /\ map snd (index (mkFAISS (sv:=demo) EMBEDDING_MODEL
                       (zip (map len (map page_content manual)) manual)))
     = manual.
Proof.
  apply (ingest_success demo s_ready manual (world s_ready) manual
           (map len (map page_content manual)) (world s_ready)).
  - reflexivity.
  - reflexivity.
  - vm_compute. reflexivity.
  - reflexivity.
  - discriminate.
  - reflexivity.
Defined.

Lemma ingest_blank_pdf_fails_witness :
  exists e s',
    ingest_pdf demo s_scan
    = (Ok (false, lit "❌ Error: " ++ exc_str e, None), s').
Proof.
  apply (ingest_blank_pdf_fails demo s_scan
           [mkDocument (lit "   " ++ newline ++ lit " ") []] (world s_scan)).
  - reflexivity.
  - reflexivity.
  - repeat constructor.
Defined.

End IngestMore.

(** ** More about the page *)

Module PageFacts.
Import TextSplitter Rag Props Shapes RagFacts IngestFacts SessionFacts
  PipelineFacts.

Section Page.
Variable sv : Services.

(** What [initialized] does to a session state: stored attributes keep
    their value, the two attributes of the script are present, and no
    other attribute appears. *)
Lemma initialized_keys (ss : gmap string (PyVal sv)) :
  (forall k v, ss !! k = Some v -> initialized sv ss !! k = Some v)
  /\ is_Some (initialized sv ss !! "vectorstore")
  /\ is_Some (initialized sv ss !! "qa_chain")
  /\ (forall k, k <> "vectorstore"%string -> k <> "qa_chain"%string ->
                initialized sv ss !! k = ss !! k).
Proof.
  unfold initialized.
  destruct (ss !! "vectorstore") as [v1|] eqn:H1;
    destruct (ss !! "qa_chain") as [v2|] eqn:H2;
    repeat first
      [ rewrite bool_decide_eq_true_2 by (simplify_map_eq; eauto)
      | rewrite bool_decide_eq_false_2
          by (simplify_map_eq; intros [? ?]; congruence) ];
    (split_and!; [| | |]);
    try (intros k v Hk;
         destruct (decide (k = "vectorstore"%string)) as [->|];
         destruct (decide (k = "qa_chain"%string)) as [->|];
         simplify_map_eq; done);
    try (intros k ? ?; by simplify_map_eq);
    by simplify_map_eq.
Qed.

(** X8. [initialize_session_state] never overwrites: every attribute
    already stored keeps its value (so a rerun does not drop the index),
    the two attributes of the script are present afterwards, no other
    attribute appears, and neither the world nor the page is touched. *)
Theorem initialize_session_state_keeps (s : State sv) :
  exists s',
    initialize_session_state sv s = (Ok tt, s')
    /\ world s' = world s /\ trace s' = trace s
    /\ (forall k v, session_state s !! k = Some v ->
                    session_state s' !! k = Some v)
    /\ is_Some (session_state s' !! "vectorstore")
    /\ is_Some (session_state s' !! "qa_chain")
    /\ (forall k, k <> "vectorstore"%string -> k <> "qa_chain"%string ->
                  session_state s' !! k = session_state s !! k).
Proof.
  eexists. split; [apply initialize_session_state_run|].
  cbn [world trace session_state].
  destruct (initialized_keys (session_state s)) as (H1 & H2 & H3 & H4).
  by split_and!.
Qed.

Lemma bind_ok {A B} (c : M sv A) (k : A -> M sv B) s a s1 :
  c s = (Ok a, s1) -> bind c k s = k a s1.
Proof. intros H. unfold bind. by rewrite H. Qed.

(** The sidebar of a run without a click. *)
Lemma sidebar_idle inp (s : State sv) :
  process_pdf_clicked inp = false ->
  sidebar sv inp s
  = (Ok tt,
     mkState (world s) (session_state s)
       (trace s ++ sidebar_events (Path_exists sv PDF_PATH (world s)))).
Proof.
  intros Hclick. unfold sidebar, pdf_path_exists, bind, emit, call, ret.
  rewrite Hclick. cbn [world session_state trace].
  unfold sidebar_events. by rewrite <- !app_assoc.
Qed.

Lemma script_after_init inp (s : State sv) :
  script sv inp s
  = (sidebar sv inp ;; main_interface sv inp)
      (mkState (world s) (initialized sv (session_state s))
         (trace s ++ banner_events)).
Proof.
  unfold script. unfold bind at 1. cbn [emit world session_state trace].
  unfold bind at 1. rewrite initialize_session_state_run.
  unfold bind at 1. cbn [emit world session_state trace].
  unfold banner_events. by rewrite <- app_assoc.
Qed.

Lemma try_except_ok (c : M sv unit) (h : Exception -> M sv unit) :
  (forall e s1, exists s', h e s1 = (Ok tt, s')) ->
  forall s, exists s', try_except c h s = (Ok tt, s').
Proof.
  intros Hh s. unfold try_except.
  destruct (c s) as [[[]|e] s1]; [by eexists|apply Hh].
Qed.

(** X9. The query handler never raises, whatever the services do and
    whatever the session holds (even no pipeline at all): reading the
    pipeline, retrieving, asking the model and showing the sources all
    happen inside the [try], and the handler of the exception only
    writes to the page.  The session state is left as it was. *)
Theorem query_handler_never_raises (q : str) (s : State sv) :
  exists s',
    answer_question sv q s = (Ok tt, s')
    /\ session_state s' = session_state s.
Proof.
  pose proof (preserves_answer_question sv q s) as Hss.
  unfold answer_question in *. unfold bind at 1 in Hss. unfold bind at 1.
  cbn [emit] in *.
  match goal with
  | |- context [try_except ?c ?h ?s0] =>
      destruct (try_except_ok c h) with (s := s0) as [s' Hs'];
        [intros e s1; unfold bind, emit; by eexists|]
  end.
  rewrite Hs' in *. by exists s'.
Qed.

Lemma run_of_script inp (s s' : State sv) :
  script sv inp s = (Ok tt, s') -> run sv inp s = s'.
Proof. intros H. unfold run. by rewrite H. Qed.

(** X10. Without an index there is no query: on a session that holds no
    index yet (a new one too), a run without a click on the button
    shows the banner (the string that Streamlit's magic writes, then
    the title), the sidebar and the warning, and nothing else; the
    question form is not shown, and whatever the inputs say, the only
    call to the outside is the existence check of the sidebar. *)
Theorem page_without_index (inp : Inputs) (s : State sv) :
  process_pdf_clicked inp = false ->
  initialized sv (session_state s) !! "vectorstore" = Some PyNone ->
  run sv inp s
  = mkState (world s) (initialized sv (session_state s))
      (trace s
         ++ banner_events
         ++ sidebar_events (Path_exists sv PDF_PATH (world s))
         ++ [warning_event]).
Proof.
  intros Hclick Hvs. apply run_of_script. rewrite script_after_init.
  unfold bind at 1. rewrite sidebar_idle by done.
  unfold main_interface, bind, session_get, ret, emit.
  cbn [world session_state trace]. rewrite Hvs. cbv beta iota.
  cbn [is_None world session_state trace].
  by rewrite <- !app_assoc.
Qed.

(** X11. With an index, nothing is asked unless a non-empty question is
    submitted: when the form is not submitted, or the question is
    empty, a run without a click on the button shows the banner, the
    sidebar and the form, calls neither the embedding service nor the
    model, and leaves the session state as it was. *)
Theorem page_without_question (inp : Inputs) (s : State sv) v m :
  indexed sv (session_state s) v m ->
  process_pdf_clicked inp = false ->
  get_answer_clicked inp && nonempty (question inp) = false ->
  run sv inp s
  = mkState (world s) (session_state s)
      (trace s
         ++ banner_events
         ++ sidebar_events (Path_exists sv PDF_PATH (world s))
         ++ form_events).
Proof.
  intros Hidx Hclick Hq. apply run_of_script. rewrite script_after_init.
  rewrite (initialized_indexed sv _ v m Hidx). destruct Hidx as [Hvs Hqa].
  unfold bind at 1. rewrite sidebar_idle by done.
  unfold main_interface, bind, session_get, ret, emit.
  cbn [world session_state trace]. rewrite Hvs. cbv beta iota.
  cbn [is_None world session_state trace]. rewrite Hqa. cbv beta iota.
  cbn [is_None world session_state trace]. rewrite Hq.
  unfold form_events. by rewrite <- !app_assoc.
Qed.

(** X12. An index is never lost: from a session that holds an index and
    its pipeline, a run either leaves the session state as it was, or
    stores a new index together with the pipeline built from it for the
    model name the field holds in that run. *)
Theorem index_never_lost (inp : Inputs) (s : State sv) v m :
  indexed sv (session_state s) v m ->
  session_state (run sv inp s) = session_state s
  \/ exists v', indexed sv (session_state (run sv inp s)) v' (model_name inp).
Proof.
  intros Hidx.
  destruct (run_session_cases sv inp s) as [H|[v' H]]; rewrite H.
  - left. by apply (initialized_indexed sv _ v m).
  - right. exists v'. apply indexed_insert.
Qed.

(** X13. A click on the button while the PDF is missing, on a session
    without an index: after the banner, the page shows the "not found"
    error under the button, the file status with the cross, and the
    warning; the parser and the embedding service are not called and
    nothing is stored. *)
Theorem page_missing_file (inp : Inputs) (s : State sv) :
  process_pdf_clicked inp = true ->
  Path_exists sv PDF_PATH (world s) = false ->
  initialized sv (session_state s) !! "vectorstore" = Some PyNone ->
  run sv inp s
  = mkState (world s) (initialized sv (session_state s))
      (trace s
         ++ banner_events
         ++ take 9 (sidebar_events false)
         ++ [call_Path_exists PDF_PATH; st_error not_found_message]
         ++ drop 9 (sidebar_events false)
         ++ [warning_event]).
Proof.
  intros Hclick Hmissing Hvs. apply run_of_script. rewrite script_after_init.
  unfold bind at 1. unfold sidebar. rewrite Hclick.
  do 9 (unfold bind at 1; cbn [emit world session_state trace]).
  match goal with
  | |- context [bind (process_pdf sv ?m) _ ?s0] =>
      destruct (ingest_pdf_cases sv s0)
        as [[_ Hing]|[(e & s1 & Hex & _)|(v & s1 & Hex & _)]];
        [|cbn [world] in Hex; congruence..];
      rewrite (bind_ok _ _ _ _ _ (process_pdf_failure sv m s0 _ _ _ Hing))
  end.
  unfold main_interface, pdf_path_exists, session_get, call.
  unfold bind, emit, ret, after_check.
  cbn [world session_state trace]. rewrite Hmissing. cbv beta iota.
  cbn [world session_state trace]. rewrite Hvs. cbv beta iota.
  cbn [is_None world session_state trace take drop sidebar_events].
  by rewrite <- ?app_assoc.
Qed.

End Page.

Import Demo.

Lemma page_missing_file_witness :
  run demo (click_process (lit "llama3.2")) s_missing
  = mkState (sv:=demo) (world s_missing)
      (initialized demo (session_state s_missing))
      (trace s_missing
         ++ banner_events
         ++ take 9 (sidebar_events false)
         ++ [call_Path_exists PDF_PATH; st_error not_found_message]
         ++ drop 9 (sidebar_events false)
         ++ [warning_event]).
Proof.
  apply (page_missing_file demo (click_process (lit "llama3.2")) s_missing);
    reflexivity.
Defined.

Lemma page_without_index_witness :
  run demo (ask (lit "llama3.2") (lit "How many fans?")) s_ready
  = mkState (sv:=demo) (world s_ready)
      (initialized demo (session_state s_ready))
      (trace s_ready
         ++ banner_events
         ++ sidebar_events (Path_exists demo PDF_PATH (world s_ready))
         ++ [warning_event]).
Proof.
  apply (page_without_index demo
           (ask (lit "llama3.2") (lit "How many fans?")) s_ready);
    reflexivity.
Defined.

Lemma page_without_question_witness :
  run demo (ask (lit "llama3.2") []) s_indexed
  = mkState (sv:=demo) (world s_indexed) (session_state s_indexed)
      (trace s_indexed
         ++ banner_events
         ++ sidebar_events (Path_exists demo PDF_PATH (world s_indexed))
         ++ form_events).
Proof.
  apply (page_without_question demo (ask (lit "llama3.2") []) s_indexed
           manual_index (lit "llama3.2")).
  - split; vm_compute; reflexivity.
  - reflexivity.
  - reflexivity.
Defined.

Lemma index_never_lost_witness :
  session_state (run demo (click_process (lit "mistral")) s_indexed)
  = session_state s_indexed
  \/ exists v',
       indexed demo
         (session_state (run demo (click_process (lit "mistral")) s_indexed))
         v' (model_name (click_process (lit "mistral"))).
Proof.
  apply (index_never_lost demo (click_process (lit "mistral")) s_indexed
           manual_index (lit "llama3.2")).
  split; vm_compute; reflexivity.
Defined.

End PageFacts.

(** ** More about the query *)

Module QueryFacts.
Import TextSplitter Rag Props Shapes RagFacts IngestFacts SplitterBounds
  RetrievalFacts.

Section Query.
Variable sv : Services.

Lemma retriever_invoke_run (r : VectorStoreRetriever sv) q (s : State sv) :
  retriever_invoke sv r q s
  = match embed_query sv (embedding_function (vectorstore r)) q (world s) with
    | (Ok qv, w) =>
        (Ok (map snd (index_search (vectorstore r) qv (search_kwargs_k r))),
         after s w [call_embed_query (embedding_function (vectorstore r)) q;
                    call_index_search (search_kwargs_k r)])
    | (Raise e, w) =>
        (Raise e,
         after s w [call_embed_query (embedding_function (vectorstore r)) q])
    end.
Proof.
  unfold retriever_invoke, FAISS_similarity_search, bind, call, emit, ret, after.
  destruct (embed_query sv _ q (world s)) as [[qv|e] w]; [|done].
  cbn [world session_state trace]. by rewrite <- app_assoc.
Qed.

(** The template of the pipeline has the two variables the chain
    supplies: filling it never raises. *)
Lemma format_messages_pipeline (v : FAISS sv) (m context q : str) :
  format_messages (chain_prompt (chain (initialize_qa_chain sv v m)))
    [("context"%string, context); ("question"%string, q)]
  = Ok (prompt_value context q).
Proof. reflexivity. Qed.

(** The chain of a pipeline built by [initialize_qa_chain]: filling the
    prompt never raises, and the model is called once, with temperature
    0 and the texts of the three nearest chunks as context. *)
Lemma chain_invoke_run (v : FAISS sv) (m q : str) (s : State sv) :
  chain_invoke sv (chain (initialize_qa_chain sv v m)) q s
  = match embed_query sv (embedding_function v) q (world s) with
    | (Raise e, w) =>
        (Raise e, after s w [call_embed_query (embedding_function v) q])
    | (Ok qv, w) =>
        let prompt := prompt_value (_format_docs (nearest_docs v qv)) q in
        ((OllamaLLM_invoke sv m 0 prompt w).1,
         after s (OllamaLLM_invoke sv m 0 prompt w).2
           [call_embed_query (embedding_function v) q;
            call_index_search 3;
            call_OllamaLLM_invoke m 0 prompt])
    end.
Proof.
  unfold chain_invoke. unfold bind at 1. rewrite retriever_invoke_run.
  change (chain_retriever (chain (initialize_qa_chain sv v m)))
    with (as_retriever v 3).
  cbn [as_retriever vectorstore search_kwargs_k].
  destruct (embed_query sv _ q (world s)) as [[qv|e] w]; [|done].
  unfold bind at 1. rewrite format_messages_pipeline.
  unfold lift, call, after, nearest_docs.
  change (model (chain_llm (chain (initialize_qa_chain sv v m)))) with m.
  change (temperature (chain_llm (chain (initialize_qa_chain sv v m)))) with 0.
  cbn [world session_state trace].
  destruct (OllamaLLM_invoke sv m 0 _ w) as [r w'].
  cbn [fst snd]. by rewrite <- app_assoc.
Qed.

Lemma display_sources_run (source_docs : list Document) :
  forall i (s : State sv),
    display_sources sv i source_docs s
    = (Ok tt, after s (world s) (source_events i source_docs)).
Proof.
  induction source_docs as [|doc docs IH]; intros i s.
  - unfold after. cbn. rewrite app_nil_r. by destruct s.
  - cbn [display_sources source_events].
    unfold bind at 1 2 3. unfold emit. rewrite IH. unfold after.
    cbn [world session_state trace]. by rewrite <- !app_assoc.
Qed.

(** The query handler on a session that holds the pipeline [b]. *)
Lemma answer_question_run q (s : State sv) b :
  session_state s !! "qa_chain" = Some (PyDict b) ->
  answer_question sv q s
  = match chain_invoke sv (chain b) q
            (after s (world s) [st_spinner (lit "Processing...")]) with
    | (Raise e, s1) => (Ok tt, after s1 (world s1) (failure_events e))
    | (Ok answer, s1) =>
        match retriever_invoke sv (retriever b) q
                (after s1 (world s1) (answer_events answer)) with
        | (Raise e, s2) => (Ok tt, after s2 (world s2) (failure_events e))
        | (Ok source_docs, s2) =>
            (Ok tt, after s2 (world s2) (source_events 1 source_docs))
        end
    end.
Proof.
  intros Hqa. unfold answer_question. unfold bind at 1. cbn [emit].
  fold (after s (world s) [st_spinner (lit "Processing...")]).
  pose proof (preserves_chain_invoke sv (chain b) q
                (after s (world s) [st_spinner (lit "Processing...")])) as Hc.
  unfold try_except. unfold bind at 1. unfold session_get.
  cbn [after session_state]. rewrite Hqa.
  unfold bind at 1. unfold ret at 1. unfold bind at 1.
  fold (after s (world s) [st_spinner (lit "Processing...")]).
  destruct (chain_invoke sv (chain b) q _) as [[answer|e] s1].
  2:{ unfold bind, emit, after, failure_events.
      cbn [world session_state trace]. by rewrite <- !app_assoc. }
  do 3 (unfold bind at 1; cbn [emit world session_state trace]).
  unfold bind at 1.
  replace (mkState (world s1) (session_state s1)
             (((trace s1 ++ [st_markdown (lit "### Answer")])
                 ++ [st_write answer])
                ++ [st_expander (lit "View Source Context")]))
    with (after s1 (world s1) (answer_events answer))
    by (unfold after, answer_events; by rewrite <- !app_assoc).
  destruct (retriever_invoke sv (retriever b) q _) as [[docs|e] s2].
  - by rewrite display_sources_run.
  - unfold bind, emit, after, failure_events.
    cbn [world session_state trace]. by rewrite <- !app_assoc.
Qed.

Lemma after_after (s : State sv) w evs w' evs' :
  after (after s w evs) w' evs' = after s w' (evs ++ evs').
Proof. unfold after. cbn. by rewrite <- app_assoc. Qed.

(** X14. When the embedding service fails on the question, the model
    is not called and nothing is retrieved: the error and the hint are
    shown, and the handler returns normally. *)
Theorem query_embedding_fails (v : FAISS sv) (m q : str) (s : State sv) e w1 :
  holds_pipeline s v m ->
  embed_query sv (embedding_function v) q (world s) = (Raise e, w1) ->
  answer_question sv q s
  = (Ok tt,
     after s w1
       ([st_spinner (lit "Processing...");
         call_embed_query (embedding_function v) q]
          ++ failure_events e)).
Proof.
  intros Hqa Hembed. rewrite (answer_question_run q s _ Hqa), chain_invoke_run.
  cbn [after world]. rewrite Hembed. by rewrite !after_after.
Qed.

(** X15. When the model fails, the error and the hint are shown after
    the retrieval and the call of the model; no answer and no source is
    shown. *)
Theorem query_model_fails (v : FAISS sv) (m q : str) (s : State sv)
    qv w1 e w2 :
  holds_pipeline s v m ->
  embed_query sv (embedding_function v) q (world s) = (Ok qv, w1) ->
  OllamaLLM_invoke sv m 0 (prompt_value (_format_docs (nearest_docs v qv)) q) w1
  = (Raise e, w2) ->
  answer_question sv q s
  = (Ok tt,
     after s w2
       ([st_spinner (lit "Processing...")] ++ retrieval_events v q
          ++ [call_OllamaLLM_invoke m 0
                (prompt_value (_format_docs (nearest_docs v qv)) q)]
          ++ failure_events e)).
Proof.
  intros Hqa Hembed Hllm.
  rewrite (answer_question_run q s _ Hqa), chain_invoke_run.
  cbn [after world]. rewrite Hembed. cbv zeta. rewrite Hllm. cbn [fst snd].
  rewrite !after_after. unfold retrieval_events. by rewrite <- ?app_assoc.
Qed.

(** X16. The sources are retrieved by a second call of the embedding
    service, after the answer is on the page: when that call fails, the
    answer stays shown and the error and the hint follow it. *)
Theorem query_sources_fail (v : FAISS sv) (m q : str) (s : State sv)
    qv w1 answer w2 e w3 :
  holds_pipeline s v m ->
  embed_query sv (embedding_function v) q (world s) = (Ok qv, w1) ->
  OllamaLLM_invoke sv m 0 (prompt_value (_format_docs (nearest_docs v qv)) q) w1
  = (Ok answer, w2) ->
  embed_query sv (embedding_function v) q w2 = (Raise e, w3) ->
  answer_question sv q s
  = (Ok tt,
     after s w3
       ([st_spinner (lit "Processing...")] ++ retrieval_events v q
          ++ [call_OllamaLLM_invoke m 0
                (prompt_value (_format_docs (nearest_docs v qv)) q)]
          ++ answer_events answer
          ++ [call_embed_query (embedding_function v) q]
          ++ failure_events e)).
Proof.
  intros Hqa Hembed Hllm Hembed2.
  rewrite (answer_question_run q s _ Hqa), chain_invoke_run.
  cbn [after world]. rewrite Hembed. cbv zeta. rewrite Hllm. cbn [fst snd].
  rewrite retriever_invoke_run.
  change (retriever (initialize_qa_chain sv v m)) with (as_retriever v 3).
  cbn [as_retriever vectorstore search_kwargs_k after world].
  rewrite Hembed2. rewrite !after_after. unfold retrieval_events.
  by rewrite <- ?app_assoc.
Qed.

(** X17. A query that goes through embeds the question twice and calls
    the model once: the context given to the model comes from the
    first embedding, the sources shown from the second; the answer is
    written before the sources are retrieved. *)
Theorem query_succeeds (v : FAISS sv) (m q : str) (s : State sv)
    qv w1 answer w2 qv' w3 :
  holds_pipeline s v m ->
  embed_query sv (embedding_function v) q (world s) = (Ok qv, w1) ->
  OllamaLLM_invoke sv m 0 (prompt_value (_format_docs (nearest_docs v qv)) q) w1
  = (Ok answer, w2) ->
  embed_query sv (embedding_function v) q w2 = (Ok qv', w3) ->
  answer_question sv q s
  = (Ok tt,
     after s w3
       ([st_spinner (lit "Processing...")] ++ retrieval_events v q
          ++ [call_OllamaLLM_invoke m 0
                (prompt_value (_format_docs (nearest_docs v qv)) q)]
          ++ answer_events answer
          ++ retrieval_events v q
          ++ source_events 1 (nearest_docs v qv'))).
Proof.
  intros Hqa Hembed Hllm Hembed2.
  rewrite (answer_question_run q s _ Hqa), chain_invoke_run.
  cbn [after world]. rewrite Hembed. cbv zeta. rewrite Hllm. cbn [fst snd].
  rewrite retriever_invoke_run.
  change (retriever (initialize_qa_chain sv v m)) with (as_retriever v 3).
  cbn [as_retriever vectorstore search_kwargs_k after world].
  rewrite Hembed2. rewrite !after_after. unfold retrieval_events, nearest_docs.
  by rewrite <- ?app_assoc.
Qed.

Lemma sorted_app_l {A} (R : A -> A -> Prop) (l1 l2 : list A) :
  StronglySorted R (l1 ++ l2) -> StronglySorted R l1.
Proof.
  induction l1 as [|a l1 IH]; [constructor|]. cbn. intros H.
  apply StronglySorted_inv in H as [Hs Ha]. constructor; [by apply IH|].
  by apply Forall_app in Ha as [? _].
Qed.

Lemma index_search_elem_of (v : FAISS sv) qv k x :
  x ∈ index_search v qv k -> x ∈ index v.
Proof.
  unfold index_search. intros (i & Hi & _)%elem_of_take.
  apply list_elem_of_lookup_2 in Hi. by rewrite by_distance_perm in Hi.
Qed.

(** X18. What a retrieval returns are documents of the index, listed
    nearest first. *)
Theorem retrieval_nearest_first (r : VectorStoreRetriever sv) (q : str)
    (s s' : State sv) (docs : list Document) :
  retriever_invoke sv r q s = (Ok docs, s') ->
  exists qv near,
    embed_query sv (embedding_function (vectorstore r)) q (world s)
    = (Ok qv, world s')
    /\ docs = map snd near
    /\ StronglySorted (closer sv qv) near
    /\ forall x, x ∈ near -> x ∈ index (vectorstore r).
Proof.
  intros (qv & Hq & ->)%retriever_invoke_ok.
  exists qv, (index_search (vectorstore r) qv (search_kwargs_k r)).
  split_and!; [done|done| |apply index_search_elem_of].
  unfold index_search.
  pose proof (by_distance_sorted sv qv (index (vectorstore r))) as Hs.
  rewrite <- (take_drop (search_kwargs_k r)) in Hs.
  by apply sorted_app_l in Hs.
Qed.

(** The index a successful ingest returns. *)
Lemma ingest_pdf_index (s : State sv) documents w1 msg v s' :
  PyPDFLoader_load sv PDF_PATH (world s) = (Ok documents, w1) ->
  ingest_pdf sv s = (Ok (true, msg, Some v), s') ->
  exists chunks vectors,
    split_documents text_splitter documents = Ok chunks
    /\ vectors <> [] /\ length vectors = length chunks
    /\ v = mkFAISS EMBEDDING_MODEL (zip vectors chunks).
Proof.
  intros Hload Hing.
  destruct (ingest_pdf_cases sv s)
    as [[_ H]|[(e & s1 & _ & _ & H)|(v' & s1 & _ & Htry & H)]];
    rewrite H in Hing; [done|done|]. injection Hing as _ <- _.
  revert Htry.
  unfold ingest_pdf_try, load_and_split_pdf, create_vectorstore,
    FAISS_from_documents, bind, call, emit, lift, ret, raise, after_check.
  cbn [world session_state trace]. rewrite Hload.
  destruct (split_documents text_splitter documents) as [chunks|e]; [|done].
  cbn [world session_state trace].
  destruct (embed_documents sv EMBEDDING_MODEL _ w1) as [[vectors|e] w2];
    [|done].
  destruct vectors as [|v0 vectors]; [done|].
  destruct (length (v0 :: vectors) =? length chunks)%nat eqn:E; [|done].
  cbn [negb]. intros [= <-]. apply Nat.eqb_eq in E. by exists chunks, (v0 :: vectors).
Qed.

(** The entries of the index a successful ingest returns. *)
Lemma ingest_pdf_entries (s : State sv) documents w1 msg v s' :
  PyPDFLoader_load sv PDF_PATH (world s) = (Ok documents, w1) ->
  ingest_pdf sv s = (Ok (true, msg, Some v), s') ->
  index v <> []
  /\ embedding_function v = EMBEDDING_MODEL
  /\ Forall (fun entry =>
               exists page,
                 page ∈ documents
                 /\ metadata entry.2 = metadata page
                 /\ chunk_of CHUNK_SIZE (page_content page)
                      (page_content entry.2))
       (index v).
Proof.
  intros Hload Hing.
  destruct (ingest_pdf_index s _ _ _ _ _ Hload Hing)
    as (chunks & vectors & Hsplit & Hne & Hlen & ->).
  destruct (split_documents_spec documents) as (chunks' & Hsplit' & Hchunks).
  rewrite Hsplit in Hsplit'. injection Hsplit' as <-.
  cbn [index embedding_function]. split_and!; [|done|].
  - destruct vectors; [done|]. by destruct chunks.
  - apply Forall_forall. intros [vec chunk] Hin.
    apply elem_of_zip_r in Hin. rewrite Forall_forall in Hchunks.
    by apply Hchunks.
Qed.

(** X19. The index of a successful ingest holds chunks of the pages of
    the PDF and nothing else: it is not empty, is tied to
    [EMBEDDING_MODEL], and each of its documents is a chunk of one of
    the pages the parser returned, with the metadata of that page. *)
Theorem ingested_index_holds_chunks (s : State sv) documents w1 msg v s' :
  PyPDFLoader_load sv PDF_PATH (world s) = (Ok documents, w1) ->
  ingest_pdf sv s = (Ok (true, msg, Some v), s') ->
  index v <> []
  /\ embedding_function v = EMBEDDING_MODEL
  /\ Forall (fun entry =>
               exists page,
                 page ∈ documents
                 /\ metadata entry.2 = metadata page
                 /\ chunk_of CHUNK_SIZE (page_content page)
                      (page_content entry.2))
       (index v).
Proof. apply ingest_pdf_entries. Qed.

(** X20. The preview of a source is cut at 500 characters, and a chunk
    has at most 256: whatever is retrieved from the index of a
    successful ingest is shown in full, followed by the three dots. *)
Theorem ingested_sources_shown_in_full (s : State sv) msg v s' qv k :
  ingest_pdf sv s = (Ok (true, msg, Some v), s') ->
  Forall (fun doc =>
            take 500 (page_content doc) ++ lit "..."
            = page_content doc ++ lit "...")
    (map snd (index_search v qv k)).
Proof.
  intros Hing.
  destruct (PyPDFLoader_load sv PDF_PATH (world s)) as [[documents|e] w1] eqn:Hload.
  2:{ exfalso.
      destruct (ingest_pdf_cases sv s)
        as [[_ H]|[(e' & s1 & _ & _ & H)|(v' & s1 & _ & Htry & H)]];
        rewrite H in Hing; [done|done|].
      revert Htry.
      unfold ingest_pdf_try, load_and_split_pdf, bind, call, emit, after_check.
      cbn [world session_state trace]. by rewrite Hload. }
  destruct (ingest_pdf_entries s _ _ _ _ _ Hload Hing) as (_ & _ & Hentries).
  apply Forall_forall. intros doc [[vec d] [-> Hin]]%list_elem_of_fmap.
  apply index_search_elem_of in Hin. rewrite Forall_forall in Hentries.
  destruct (Hentries _ Hin) as (page & _ & _ & (_ & Hle & _)).
  cbn [snd] in *. rewrite take_ge; [done|].
  unfold len, CHUNK_SIZE in Hle. lia.
Qed.

End Query.

Import Demo Metered.

Lemma query_embedding_fails_witness :
  answer_question metered (lit "fans") (asking (0%nat, true))
  = (Ok tt,
     after (asking (0%nat, true)) (0%nat, true)
       ([st_spinner (lit "Processing...");
         call_embed_query (embedding_function metered_index) (lit "fans")]
          ++ failure_events ConnectionError)).
Proof.
  apply (query_embedding_fails metered metered_index (lit "llama3.2")
           (lit "fans") (asking (0%nat, true)) ConnectionError (0%nat, true)).
  - vm_compute. reflexivity.
  - reflexivity.
Defined.

Lemma query_model_fails_witness :
  answer_question metered (lit "fans") (asking (5%nat, false))
  = (Ok tt,
     after (asking (5%nat, false)) (4%nat, false)
       ([st_spinner (lit "Processing...")]
          ++ retrieval_events metered_index (lit "fans")
          ++ [call_OllamaLLM_invoke (lit "llama3.2") 0 fans_prompt]
          ++ failure_events ConnectionError)).
Proof.
  apply (query_model_fails metered metered_index (lit "llama3.2")
           (lit "fans") (asking (5%nat, false)) 4 (4%nat, false)
           ConnectionError (4%nat, false)).
  - vm_compute. reflexivity.
  - reflexivity.
  - reflexivity.
Defined.

Lemma query_sources_fail_witness :
  answer_question metered (lit "fans") (asking (1%nat, true))
  = (Ok tt,
     after (asking (1%nat, true)) (0%nat, true)
       ([st_spinner (lit "Processing...")]
          ++ retrieval_events metered_index (lit "fans")
          ++ [call_OllamaLLM_invoke (lit "llama3.2") 0 fans_prompt]
          ++ answer_events (lit "An answer from llama3.2")
          ++ [call_embed_query (embedding_function metered_index) (lit "fans")]
          ++ failure_events ConnectionError)).
Proof.
  apply (query_sources_fail metered metered_index (lit "llama3.2")
           (lit "fans") (asking (1%nat, true)) 4 (0%nat, true)
           (lit "An answer from llama3.2") (0%nat, true)
           ConnectionError (0%nat, true)).
  - vm_compute. reflexivity.
  - reflexivity.
  - reflexivity.
  - reflexivity.
Defined.

Lemma query_succeeds_witness :
  answer_question metered (lit "fans") (asking (2%nat, true))
  = (Ok tt,
     after (asking (2%nat, true)) (0%nat, true)
       ([st_spinner (lit "Processing...")]
          ++ retrieval_events metered_index (lit "fans")
          ++ [call_OllamaLLM_invoke (lit "llama3.2") 0 fans_prompt]
          ++ answer_events (lit "An answer from llama3.2")
          ++ retrieval_events metered_index (lit "fans")
          ++ source_events 1 (nearest_docs metered_index 4))).
Proof.
  apply (query_succeeds metered metered_index (lit "llama3.2")
           (lit "fans") (asking (2%nat, true)) 4 (1%nat, true)
           (lit "An answer from llama3.2") (1%nat, true) 4 (0%nat, true)).
  - vm_compute. reflexivity.
  - reflexivity.
  - reflexivity.
  - reflexivity.
Defined.

Lemma retrieval_nearest_first_witness :
  exists qv near,
    embed_query demo (embedding_function shelf_index) (lit "fans")
      (world s_ready)
    = (Ok qv, world s_ready)
    /\ map (fun t => mkDocument (lit t) []) ["abcd"; "abc"]%string
       = map snd near
    /\ StronglySorted (closer demo qv) near
    /\ forall x, x ∈ near -> x ∈ index shelf_index.
Proof.
  apply (retrieval_nearest_first demo (as_retriever shelf_index 2)
           (lit "fans") s_ready
           (retriever_invoke demo (as_retriever shelf_index 2) (lit "fans")
              s_ready).2).
  vm_compute. reflexivity.
Defined.

Lemma ingested_index_holds_chunks_witness :
  index manual_index <> []
  /\ embedding_function manual_index = EMBEDDING_MODEL
  /\ Forall (fun entry =>
               exists page,
                 page ∈ manual
                 /\ metadata entry.2 = metadata page
                 /\ chunk_of CHUNK_SIZE (page_content page)
                      (page_content entry.2))
       (index manual_index).
Proof.
  apply (ingested_index_holds_chunks demo s_ready manual (world s_ready)
           success_message manual_index (ingest_pdf demo s_ready).2).
  - reflexivity.
  - vm_compute. reflexivity.
Defined.

Lemma ingested_sources_shown_in_full_witness :
  Forall (fun doc =>
            take 500 (page_content doc) ++ lit "..."
            = page_content doc ++ lit "...")
    (map snd (index_search manual_index 4 3)).
Proof.
  apply (ingested_sources_shown_in_full demo s_ready success_message
           manual_index (ingest_pdf demo s_ready).2 4 3).
  vm_compute. reflexivity.
Defined.

End QueryFacts.

(** ** Whole runs *)

Module RunFacts.
Import TextSplitter Rag Props Shapes RagFacts IngestFacts SessionFacts
  PipelineFacts IngestMore PageFacts QueryFacts.

Section Runs.
Variable sv : Services.

(** The sidebar of a run with a click, when ingest goes through. *)
Lemma sidebar_ingest inp (s : State sv) v s1 :
  process_pdf_clicked inp = true ->
  ingest_pdf sv (mkState (world s) (session_state s)
                   (trace s ++ take 9 (sidebar_events true)))
  = (Ok (true, success_message, Some v), s1) ->
  sidebar sv inp s
  = (Ok tt,
     mkState (world s1)
       (<["qa_chain" := PyDict (initialize_qa_chain sv v (model_name inp))]>
          (<["vectorstore" := PyFAISS v]> (session_state s1)))
       (trace s1 ++ [st_success success_message]
          ++ drop 9 (sidebar_events (Path_exists sv PDF_PATH (world s1))))).
Proof.
  intros Hclick Hing. unfold sidebar. rewrite Hclick.
  do 9 (unfold bind at 1; cbn [emit world session_state trace]).
  match goal with
  | |- context [bind (process_pdf sv ?m) _ ?s0] =>
      replace s0
        with (mkState (world s) (session_state s)
                (trace s ++ take 9 (sidebar_events true)))
        by (cbn [take sidebar_events]; by rewrite <- ?app_assoc)
  end.
  rewrite (bind_ok sv _ _ _ _ _ (process_pdf_success sv _ _ _ _ _ Hing)).
  unfold pdf_path_exists, call. unfold bind, emit, ret.
  cbn [world session_state trace take drop sidebar_events].
  by rewrite <- ?app_assoc.
Qed.

(** X21. A click that ingests the PDF takes effect in the same run:
    when every step of ingest goes through, the run stores the index and
    the pipeline built for the model name of the field, shows (after
    the banner) the success message under the button, checks the file
    again for the file status, and shows the question form instead of
    the warning. *)
Theorem page_after_ingest (inp : Inputs) (s : State sv)
    documents w1 chunks vectors w2 :
  process_pdf_clicked inp = true ->
  get_answer_clicked inp && nonempty (question inp) = false ->
  Path_exists sv PDF_PATH (world s) = true ->
  PyPDFLoader_load sv PDF_PATH (world s) = (Ok documents, w1) ->
  split_documents text_splitter documents = Ok chunks ->
  embed_documents sv EMBEDDING_MODEL (map page_content chunks) w1
  = (Ok vectors, w2) ->
  vectors <> [] ->
  length vectors = length chunks ->
  run sv inp s
  = mkState w2
      (<["qa_chain" :=
           PyDict (initialize_qa_chain sv
                     (mkFAISS EMBEDDING_MODEL (zip vectors chunks))
                     (model_name inp))]>
         (<["vectorstore" :=
              PyFAISS (mkFAISS EMBEDDING_MODEL (zip vectors chunks))]>
            (initialized sv (session_state s))))
      (trace s
         ++ banner_events
         ++ take 9 (sidebar_events true)
         ++ ingest_events documents chunks
         ++ [st_success success_message]
         ++ drop 9 (sidebar_events (Path_exists sv PDF_PATH w2))
         ++ form_events).
Proof.
  intros Hclick Hq Hex Hload Hsplit Hembed Hne Hlen.
  apply run_of_script. rewrite script_after_init.
  unfold bind at 1.
  erewrite sidebar_ingest;
    [|done
     |by apply (ingest_pdf_run sv _ documents w1 chunks vectors w2)].
  unfold main_interface, session_get. unfold bind, ret, emit.
  cbn [world session_state trace].
  rewrite lookup_insert_ne by done. rewrite lookup_insert_eq.
  cbv beta iota. cbn [is_None world session_state trace].
  rewrite lookup_insert_eq.
  cbv beta iota. cbn [is_None world session_state trace]. rewrite Hq.
  unfold form_events. by rewrite <- ?app_assoc.
Qed.

(** A run without a click in which a non-empty question is submitted,
    on a session that holds an index and its pipeline: after the
    banner, the sidebar and the form, the script is the query
    handler. *)
Lemma script_asking inp (s : State sv) v m :
  indexed sv (session_state s) v m ->
  process_pdf_clicked inp = false ->
  get_answer_clicked inp && nonempty (question inp) = true ->
  script sv inp s
  = answer_question sv (question inp)
      (mkState (world s) (session_state s)
         (trace s ++ banner_events
            ++ sidebar_events (Path_exists sv PDF_PATH (world s))
            ++ form_events)).
Proof.
  intros Hidx Hclick Hq. rewrite script_after_init.
  rewrite (initialized_indexed sv _ v m Hidx). destruct Hidx as [Hvs Hqa].
  unfold bind at 1. rewrite sidebar_idle by done.
  unfold main_interface, bind, session_get, ret, emit.
  cbn [world session_state trace]. rewrite Hvs. cbv beta iota.
  cbn [is_None world session_state trace]. rewrite Hqa. cbv beta iota.
  cbn [is_None world session_state trace]. rewrite Hq.
  unfold form_events. by rewrite <- ?app_assoc.
Qed.

(** X22. A whole run with a question: on a session that holds an index
    and its pipeline, with no click on the button, a submitted
    non-empty question whose three calls go through puts on the page
    the banner, the sidebar, the form, the answer and the sources, in
    this order, and leaves the session state as it was. *)
Theorem page_with_answer (inp : Inputs) (s : State sv) v m
    qv w1 answer w2 qv' w3 :
  indexed sv (session_state s) v m ->
  process_pdf_clicked inp = false ->
  get_answer_clicked inp && nonempty (question inp) = true ->
  embed_query sv (embedding_function v) (question inp) (world s)
  = (Ok qv, w1) ->
  OllamaLLM_invoke sv m 0
    (prompt_value (_format_docs (nearest_docs v qv)) (question inp)) w1
  = (Ok answer, w2) ->
  embed_query sv (embedding_function v) (question inp) w2 = (Ok qv', w3) ->
  run sv inp s
  = mkState w3 (session_state s)
      (trace s
         ++ banner_events
         ++ sidebar_events (Path_exists sv PDF_PATH (world s))
         ++ form_events
         ++ [st_spinner (lit "Processing...")]
         ++ retrieval_events v (question inp)
         ++ [call_OllamaLLM_invoke m 0
               (prompt_value (_format_docs (nearest_docs v qv))
                  (question inp))]
         ++ answer_events answer
         ++ retrieval_events v (question inp)
         ++ source_events 1 (nearest_docs v qv')).
Proof.
  intros Hidx Hclick Hq Hembed Hllm Hembed2.
  apply run_of_script. rewrite script_after_init.
  rewrite (initialized_indexed sv _ v m Hidx). destruct Hidx as [Hvs Hqa].
  unfold bind at 1. rewrite sidebar_idle by done.
  unfold main_interface, bind, session_get, ret, emit.
  cbn [world session_state trace]. rewrite Hvs. cbv beta iota.
  cbn [is_None world session_state trace]. rewrite Hqa. cbv beta iota.
  cbn [is_None world session_state trace]. rewrite Hq.
  erewrite answer_question_run by exact Hqa.
  rewrite chain_invoke_run.
  cbn [after world session_state trace]. rewrite Hembed. cbv zeta.
  rewrite Hllm. cbn [fst snd].
  rewrite retriever_invoke_run.
  change (retriever (initialize_qa_chain sv v m)) with (as_retriever v 3).
  cbn [as_retriever vectorstore search_kwargs_k after world session_state trace].
  rewrite Hembed2. unfold after. cbn [world session_state trace].
  unfold retrieval_events, nearest_docs, form_events.
  by rewrite <- ?app_assoc.
Qed.

End Runs.

Import Demo Metered.

Lemma page_after_ingest_witness :
  run demo (click_process (lit "llama3.2")) s_ready
  = mkState (sv:=demo) (world s_ready)
      (<["qa_chain" :=
           PyDict (initialize_qa_chain demo manual_index (lit "llama3.2"))]>
         (<["vectorstore" := PyFAISS manual_index]>
            (initialized demo (session_state s_ready))))
      (trace s_ready
         ++ banner_events
         ++ take 9 (sidebar_events true)
         ++ ingest_events manual manual
         ++ [st_success success_message]
         ++ drop 9 (sidebar_events (Path_exists demo PDF_PATH (world s_ready)))
         ++ form_events).
Proof.
  apply (page_after_ingest demo (click_process (lit "llama3.2")) s_ready
           manual (world s_ready) manual
           (map len (map page_content manual)) (world s_ready)).
  - reflexivity.
  - reflexivity.
  - reflexivity.
  - reflexivity.
  - vm_compute. reflexivity.
  - reflexivity.
  - discriminate.
  - reflexivity.
Defined.

Lemma page_with_answer_witness :
  run metered (ask (lit "llama3.2") (lit "fans")) (asking (2%nat, true))
  = mkState (sv:=metered) (0%nat, true)
      (session_state (asking (2%nat, true)))
      (trace (asking (2%nat, true))
         ++ banner_events
         ++ sidebar_events true
         ++ form_events
         ++ [st_spinner (lit "Processing...")]
         ++ retrieval_events metered_index (lit "fans")
         ++ [call_OllamaLLM_invoke (lit "llama3.2") 0 fans_prompt]
         ++ answer_events (lit "An answer from llama3.2")
         ++ retrieval_events metered_index (lit "fans")
         ++ source_events 1 (nearest_docs metered_index 4)).
Proof.
  apply (page_with_answer metered (ask (lit "llama3.2") (lit "fans"))
           (asking (2%nat, true)) metered_index (lit "llama3.2")
           4 (1%nat, true) (lit "An answer from llama3.2") (1%nat, true)
           4 (0%nat, true)).
  - split; vm_compute; reflexivity.
  - reflexivity.
  - reflexivity.
  - reflexivity.
  - reflexivity.
  - reflexivity.
Defined.

End RunFacts.

(** ** The pipeline after the model field changes *)

Module StaleFacts.
Import TextSplitter Rag Props Shapes RagFacts IngestFacts SessionFacts
  PipelineFacts PageFacts QueryFacts RunFacts.

Section Stale.
Variable sv : Services.

(** C9. After a successful ingest with the model field at [m0], the
    stored pipeline is the one built for [m0]; in any later run without
    a click on the button, whatever the model field holds then, the
    stored pipeline stays, no language model other than [m0] is called,
    and a submitted question whose embedding is obtained is put to
    [m0]: the model is called under the name [m0], with temperature 0,
    on the prompt built from the three nearest chunks. *)
Theorem stale_pipeline_reused (m0 : str) (s0 s1 s : State sv) msg v
    (inp : Inputs) :
  ingest_pdf sv s0 = (Ok (true, msg, Some v), s1) ->
  session_state s = session_state (process_pdf sv m0 s0).2 ->
  process_pdf_clicked inp = false ->
  session_state s !! "qa_chain" = Some (PyDict (initialize_qa_chain sv v m0))
  /\ session_state (run sv inp s) = session_state s
  /\ Forall (no_other_model m0) (events_since sv s (run sv inp s))
  /\ (get_answer_clicked inp && nonempty (question inp) = true ->
      forall qv w1,
        embed_query sv (embedding_function v) (question inp) (world s)
        = (Ok qv, w1) ->
        call_OllamaLLM_invoke m0 0
          (prompt_value (_format_docs (nearest_docs v qv)) (question inp))
        ∈ events_since sv s (run sv inp s)).
Proof.
  intros Hing Hs Hclick.
  assert (Hidx : indexed sv (session_state s) v m0).
  { rewrite Hs, (process_pdf_success sv m0 s0 _ _ _ Hing). apply indexed_insert. }
  pose proof Hidx as [Hvs Hqa]. split; [done|].
  destruct (run_without_process sv inp s v _ Hvs Hqa Hclick) as [Hss Hno].
  split_and!; [done|done|].
  intros Hq qv w1 Hembed. unfold run, events_since.
  rewrite (script_asking sv inp s v m0 Hidx Hclick Hq).
  erewrite answer_question_run by exact Hqa.
  rewrite chain_invoke_run. cbn [after world session_state trace].
  rewrite Hembed. cbv zeta.
  destruct (OllamaLLM_invoke sv m0 0 _ w1) as [[answer|e] w2]; cbn [fst snd].
  - rewrite retriever_invoke_run.
    cbn [after world session_state trace].
    destruct (embed_query sv _ (question inp) w2) as [[qv'|e'] w3];
      unfold after; cbn [world session_state trace];
      rewrite <- ?app_assoc, drop_app_length;
      rewrite !elem_of_app, !elem_of_cons; tauto.
  - unfold after; cbn [world session_state trace].
    rewrite <- ?app_assoc, drop_app_length.
    rewrite !elem_of_app, !elem_of_cons. tauto.
Qed.

End Stale.

Import Demo.

Lemma stale_pipeline_reused_witness :
  session_state (process_pdf demo (lit "llama3.2") s_ready).2 !! "qa_chain"
  = Some (PyDict (initialize_qa_chain demo manual_index (lit "llama3.2")))
  /\ session_state
       (run demo (ask (lit "mistral") (lit "How many fans?"))
          (process_pdf demo (lit "llama3.2") s_ready).2)
     = session_state (process_pdf demo (lit "llama3.2") s_ready).2
  /\ Forall (no_other_model (lit "llama3.2"))
       (events_since demo (process_pdf demo (lit "llama3.2") s_ready).2
          (run demo (ask (lit "mistral") (lit "How many fans?"))
             (process_pdf demo (lit "llama3.2") s_ready).2))
  /\ (get_answer_clicked (ask (lit "mistral") (lit "How many fans?"))
      && nonempty (question (ask (lit "mistral") (lit "How many fans?")))
      = true ->
      forall qv w1,
        embed_query demo (embedding_function manual_index)
          (question (ask (lit "mistral") (lit "How many fans?")))
          (world (process_pdf demo (lit "llama3.2") s_ready).2)
        = (Ok qv, w1) ->
        call_OllamaLLM_invoke (lit "llama3.2") 0
          (prompt_value (_format_docs (nearest_docs manual_index qv))
             (question (ask (lit "mistral") (lit "How many fans?"))))
        ∈ events_since demo (process_pdf demo (lit "llama3.2") s_ready).2
            (run demo (ask (lit "mistral") (lit "How many fans?"))
               (process_pdf demo (lit "llama3.2") s_ready).2)).
Proof.
  apply (stale_pipeline_reused demo (lit "llama3.2") s_ready
           (ingest_pdf demo s_ready).2
           (process_pdf demo (lit "llama3.2") s_ready).2
           success_message manual_index
           (ask (lit "mistral") (lit "How many fans?"))).
  - vm_compute. reflexivity.
  - reflexivity.
  - reflexivity.
Defined.

End StaleFacts.
